(** * read_vcf.py: counting the records of a variant-call file

    A shallow embedding of [read_vcf.py] and of the Python built-ins it
    calls ([str.startswith], [str.strip], [str.split], [int], [print]),
    followed by the properties of the script.

    Conventions of the model:
    - a Python [str] is a list of Unicode code points;
    - a Python [int] is a [Z];
    - the text stream [fhand] is the list of lines that iterating over it
      yields (each line with its terminating newline);
    - an uncaught exception is a value of [exn], returned through [res];
    - standard output is the text written so far, passed explicitly. *)

From Stdlib Require Import String Ascii.
From Stdlib Require Import List ZArith NArith Lia Bool Permutation.
Import ListNotations.

Local Open Scope Z_scope.

(** ** Python strings *)

Definition char : Type := N.
Definition str : Type := list char.

(** A literal of the source, written as a Rocq string. *)
Definition lit (s : string) : str := map N_of_ascii (list_ascii_of_string s).

Definition TAB : char := 0x09%N.
Definition LF : char := 0x0a%N.
Definition CR : char := 0x0d%N.
Definition SPACE : char := 0x20%N.
Definition HASH : char := 0x23%N.
Definition PLUS : char := 0x2b%N.
Definition MINUS : char := 0x2d%N.
Definition SLASH : char := 0x2f%N.
Definition QUESTION : char := 0x3f%N.
Definition UNDERSCORE : char := 0x5f%N.

Definition in_range (lo hi c : char) : bool := ((lo <=? c) && (c <=? hi))%N.
Arguments in_range (lo hi c)%_N.

(** [Py_UNICODE_ISSPACE]: the characters [str.strip()] removes and
    [str.isspace()] accepts. *)
Definition isspace (c : char) : bool :=
  in_range 0x09 0x0d c || in_range 0x1c 0x20 c
  || (c =? 0x85)%N || (c =? 0xa0)%N || (c =? 0x1680)%N
  || in_range 0x2000 0x200a c
  || (c =? 0x2028)%N || (c =? 0x2029)%N || (c =? 0x202f)%N
  || (c =? 0x205f)%N || (c =? 0x3000)%N.

(** [Py_ISSPACE]: the C-locale white space that [PyLong_FromString]
    skips. The separators 0x1c-0x1f are not part of it. *)
Definition c_isspace (c : char) : bool := in_range 0x09 0x0d c || (c =? SPACE)%N.

(** First code point of every run of ten decimal digits (category Nd,
    Unicode 14.0, the database of CPython 3.11). *)
Definition decimal_zeros : list char :=
  [48; 1632; 1776; 1984; 2406; 2534; 2662; 2790; 2918; 3046; 3174; 3302;
   3430; 3558; 3664; 3792; 3872; 4160; 4240; 6112; 6160; 6470; 6608; 6784;
   6800; 6992; 7088; 7232; 7248; 42528; 43216; 43264; 43472; 43504; 43600;
   44016; 65296; 66720; 68912; 69734; 69872; 69942; 70096; 70384; 70736;
   70864; 71248; 71360; 71472; 71904; 72016; 72784; 73040; 73120; 92768;
   92864; 93008; 120782; 120792; 120802; 120812; 120822; 123200; 123632;
   125264; 130032]%N.

(** [Py_UNICODE_TODECIMAL]: the decimal value of a digit character. *)
Definition todecimal (c : char) : option N :=
  match find (fun z => in_range z (z + 9) c) decimal_zeros with
  | Some z => Some (c - z)%N
  | None => None
  end.

(** [s.startswith(prefix)] *)
Fixpoint startswith (s prefix : str) {struct prefix} : bool :=
  match prefix, s with
  | [], _ => true
  | p :: prefix', c :: s' => (c =? p)%N && startswith s' prefix'
  | _ :: _, [] => false
  end.

Fixpoint lstrip (s : str) : str :=
  match s with
  | c :: s' => if isspace c then lstrip s' else s
  | [] => []
  end.

Definition rstrip (s : str) : str := rev (lstrip (rev s)).

(** [s.strip()]: white space is removed at both ends. *)
Definition strip (s : str) : str := rstrip (lstrip s).

(** [s.split(sep)] for a separator of one character. *)
Fixpoint split (sep : char) (s : str) : list str :=
  match s with
  | [] => [[]]
  | c :: s' =>
      if (c =? sep)%N then [] :: split sep s'
      else match split sep s' with
           | field :: fields => (c :: field) :: fields
           | [] => [[c]]
           end
  end.

(** [sep.join(parts)] for a separator of one character. *)
Fixpoint join (sep : char) (parts : list str) : str :=
  match parts with
  | [] => []
  | [p] => p
  | p :: ps => p ++ sep :: join sep ps
  end.

(** ** Exceptions *)

(** The two [ValueError]s of [int]: [invalid literal for int() with base
    10: u] and [Exceeds the limit for integer string conversion: value has
    n digits]. *)
Inductive exn : Type :=
| ValueError_invalid_literal (u : str)
| ValueError_exceeds_limit (digits : nat).

Inductive res (A : Type) : Type :=
| Ok (a : A)
| Err (e : exn).
Arguments Ok {A} a.
Arguments Err {A} e.

Definition bind {A B : Type} (m : res A) (k : A -> res B) : res B :=
  match m with
  | Ok a => k a
  | Err e => Err e
  end.

Notation "x <- m ;; k" := (bind m (fun x => k))
  (at level 61, m at next level, right associativity).

Definition is_ok {A : Type} (m : res A) : bool :=
  match m with Ok _ => true | Err _ => false end.

(** [list(map(f, xs))]: [f] is applied from left to right and the first
    exception ends the evaluation. *)
Fixpoint list_map {A B : Type} (f : A -> res B) (xs : list A) : res (list B) :=
  match xs with
  | [] => Ok []
  | x :: xs' => y <- f x ;; ys <- list_map f xs' ;; Ok (y :: ys)
  end.

(** ** The conversion [int(str)] *)

(** [_PyUnicode_TransformDecimalAndSpaceToASCII]: an ASCII string is kept
    as it is; otherwise white space becomes a blank, a decimal digit its
    ASCII digit, and the first other character from 127 on becomes [?] and
    ends the buffer. *)
Fixpoint transform_loop (u : str) : str :=
  match u with
  | [] => []
  | ch :: u' =>
      if (ch <? 127)%N then ch :: transform_loop u'
      else if isspace ch then SPACE :: transform_loop u'
      else match todecimal ch with
           | Some d => (48 + d)%N :: transform_loop u'
           | None => [QUESTION]
           end
  end.

Definition transform (u : str) : str :=
  if forallb (fun ch => (ch <? 128)%N) u then u else transform_loop u.

Fixpoint skip_spaces (s : str) : str :=
  match s with
  | c :: s' => if c_isspace c then skip_spaces s' else s
  | [] => []
  end.

(** Value of an ASCII digit in base 10 ([_PyLong_DigitValue]). *)
Definition digit_value (c : char) : option Z :=
  if in_range 48 57 c then Some (Z.of_N c - 48) else None.

(** The scan of [long_from_non_binary_base]: digits with single
    underscores between them. [prev_underscore] tells whether the
    character before was an underscore. The result is the value, the
    number of digits and the unread rest; [None] for a doubled or a
    trailing underscore. *)
Fixpoint scan (s : str) (prev_underscore : bool) (acc : Z) (digits : nat)
  : option (Z * nat * str) :=
  match s with
  | c :: s' =>
      if (c =? UNDERSCORE)%N then
        if prev_underscore then None else scan s' true acc digits
      else
        match digit_value c with
        | Some d => scan s' false (10 * acc + d) (S digits)
        | None => if prev_underscore then None else Some (acc, digits, s)
        end
  | [] => if prev_underscore then None else Some (acc, digits, [])
  end.

(** ** The text stream

    [gzip.open(fpath, 'rt')] wraps the decompressed bytes in a text stream
    with universal newlines. The decoded text is the input of the model. *)

(** Newline translation on input: [\r\n] and [\r] become [\n].
    [pending_cr] tells whether the character before was a carriage
    return. *)
Fixpoint universal_newlines (pending_cr : bool) (text : str) : str :=
  match text with
  | [] => []
  | c :: text' =>
      if (c =? CR)%N then LF :: universal_newlines true text'
      else if (c =? LF)%N && pending_cr then universal_newlines false text'
      else c :: universal_newlines false text'
  end.

(** The lines of a translated text: each one ends after its newline, and
    the last one where the text ends. *)
Fixpoint readlines (text : str) : list str :=
  match text with
  | [] => []
  | c :: text' =>
      if (c =? LF)%N then [LF] :: readlines text'
      else match readlines text' with
           | line :: lines => (c :: line) :: lines
           | [] => [[c]]
           end
  end.

(** What [for line in fhand] yields for a file of decoded text [text]. *)
Definition lines_of_text (text : str) : list str :=
  readlines (universal_newlines false text).

(** The header test of the loop: [line.startswith("#")]. *)
Definition is_header (line : str) : bool := startswith line (lit "#").

(** The fields of a line: [line.strip().split("\t")]. *)
Definition fields (line : str) : list str := split TAB (strip line).

(** The sample columns of a line: [line.strip().split("\t")[9:]]. *)
Definition sample_fields (line : str) : list str := skipn 9 (fields line).

(** [_PY_LONG_MAX_STR_DIGITS_THRESHOLD] *)
Definition MAX_STR_DIGITS_THRESHOLD : nat := 640.

Section Interpreter.

(** [sys.get_int_max_str_digits()]: 4300 by default from CPython 3.11 on,
    0 when the limit is disabled and in the versions that have none. *)
Variable int_max_str_digits : nat.

Definition exceeds_limit (digits : nat) : bool :=
  (MAX_STR_DIGITS_THRESHOLD <? digits)%nat
  && (0 <? int_max_str_digits)%nat
  && (int_max_str_digits <? digits)%nat.

(** [int(u)] for a string [u] ([PyLong_FromUnicodeObject] and
    [PyLong_FromString] in base 10). *)
Definition int (u : str) : res Z :=
  let s := skip_spaces (transform u) in
  let '(sign, s) :=
    match s with
    | c :: s' =>
        if (c =? PLUS)%N then (1, s')
        else if (c =? MINUS)%N then (-1, s')
        else (1, s)
    | [] => (1, s)
    end in
  if startswith s [UNDERSCORE] then Err (ValueError_invalid_literal u)
  else
    match scan s false 0 0 with
    | None => Err (ValueError_invalid_literal u)
    | Some (z, digits, rest) =>
        if exceeds_limit digits then Err (ValueError_exceeds_limit digits)
        else if (digits =? 0)%nat then Err (ValueError_invalid_literal u)
        else
          match skip_spaces rest with
          | [] => Ok (sign * z)
          | _ :: _ => Err (ValueError_invalid_literal u)
          end
    end.

(** ** The script *)

(** [def parse_gt(gt): return list(map(int, gt.split("/")))] *)
Definition parse_gt (gt : str) : res (list Z) :=
  list_map int (split SLASH gt).

(** [gts = list(map(parse_gt, line.strip().split("\t")[9:]))] *)
Definition gts (line : str) : res (list (list Z)) :=
  list_map parse_gt (sample_fields line).

(** The body of the [for] loop, from the counter before the line to the
    counter after it. *)
Definition loop_body (line : str) (snps_read : Z) : res Z :=
  if is_header line then Ok snps_read
  else _ <- gts line ;; Ok (snps_read + 1).

(** [for line in fhand: ...] *)
Fixpoint for_loop (fhand : list str) (snps_read : Z) : res Z :=
  match fhand with
  | [] => Ok snps_read
  | line :: fhand' =>
      snps_read' <- loop_body line snps_read ;; for_loop fhand' snps_read'
  end.

(** Decimal digits of a non-negative integer, most significant first. *)
Fixpoint decimal_digits (fuel : nat) (n : Z) : str :=
  match fuel with
  | O => []
  | S fuel' =>
      (if n <? 10 then [] else decimal_digits fuel' (n / 10))
        ++ [Z.to_N (48 + n mod 10)]
  end.

(** [str(z)], which is what the replacement field [{snps_read}] of the
    f-string produces. The fuel exceeds the number of digits of [z]. The
    digit limit of the conversion from [int] to [str] is left out: it
    concerns integers of more than 640 digits, and the counter is at most
    the number of lines read. *)
Definition str_of_int (z : Z) : str :=
  if z <? 0 then MINUS :: decimal_digits (S (Z.to_nat (Z.log2 (- z)))) (- z)
  else decimal_digits (S (Z.to_nat (Z.log2 z))) z.

(** What the process leaves behind: the text on standard output and how
    the script ended. *)
Record outcome : Type := Outcome { stdout : str; status : res unit }.

(** [print(s)] appends [s] and a newline to standard output. *)
Definition print (s out : str) : str := out ++ s ++ [LF].

(** The script, run on the lines of [fhand] with [out] already on standard
    output. *)
Definition main (fhand : list str) (out : str) : outcome :=
  match for_loop fhand 0 with
  | Ok snps_read =>
      Outcome (print (lit "SNPs read " ++ str_of_int snps_read) out) (Ok tt)
  | Err e => Outcome out (Err e)
  end.

(** ** Notions used in the statements *)

(** The lines that are not headers, in the order of the file. *)
Definition data_lines (fhand : list str) : list str :=
  filter (fun line => negb (is_header line)) fhand.

(** Every string the script hands to [int], in the order of evaluation:
    the pieces of the sample columns of the data lines. *)
Definition pieces_read (fhand : list str) : list str :=
  flat_map (fun line => flat_map (split SLASH) (sample_fields line))
    (data_lines fhand).

(** The fields as the specification describes them: only trailing white
    space is stripped before the line is split on tabs. *)
Definition spec_fields (line : str) : list str := split TAB (rstrip line).

(** Value of a string of ASCII digits read in base 10 after [acc]. *)
Definition horner (acc : Z) (ds : str) : Z :=
  fold_left (fun a c => 10 * a + (Z.of_N c - 48)) ds acc.

Definition decimal_value (ds : str) : Z := horner 0 ds.

Definition is_ascii_digit (c : char) : bool := in_range 48 57 c.

(** The characters a buffer accepted by [PyLong_FromString] is made of. *)
Definition int_char (c : char) : bool :=
  c_isspace c || (c =? PLUS)%N || (c =? MINUS)%N || (c =? UNDERSCORE)%N
  || is_ascii_digit c.

(** What [int u] does once the sign is read: [s] is the buffer after the
    sign. *)
Definition int_after_sign (u : str) (sign : Z) (s : str) : res Z :=
  if startswith s [UNDERSCORE] then Err (ValueError_invalid_literal u)
  else
    match scan s false 0 0 with
    | None => Err (ValueError_invalid_literal u)
    | Some (z, digits, rest) =>
        if exceeds_limit digits then Err (ValueError_exceeds_limit digits)
        else if (digits =? 0)%nat then Err (ValueError_invalid_literal u)
        else
          match skip_spaces rest with
          | [] => Ok (sign * z)
          | _ :: _ => Err (ValueError_invalid_literal u)
          end
    end.

(** The pieces of the genotype tokens as the specification describes
    them: the fields from index 9 onward of every data line, the line
    being stripped of trailing white space only. *)
Definition spec_pieces (fhand : list str) : list str :=
  flat_map (fun line => flat_map (split SLASH) (skipn 9 (spec_fields line)))
    (data_lines fhand).

Definition begins_with_space (line : str) : bool :=
  match line with
  | c :: _ => isspace c
  | [] => false
  end.





(** A line as text-mode iteration yields it: not empty, no carriage return
    (universal newlines), and no newline except as the last character. *)
Definition wf_line (line : str) : bool :=
  match rev line with
  | [] => false
  | _ :: body => forallb (fun c => negb (c =? LF)%N && negb (c =? CR)%N) body
  end
  && forallb (fun c => negb (c =? CR)%N) line.

(** ** Sample inputs *)

(** A line of tab-separated columns, with its newline. *)
Definition tsv (columns : list string) : str := join TAB (map lit columns) ++ [LF].

(** The lines of the concrete scenario of the specification: one header
    and two data lines. *)
Definition header_line : str := lit "#header" ++ [LF].

Definition data_line_1 : str :=
  tsv ["c1"; "."; "."; "."; "."; "."; "."; "."; "."; "0/0"; "0/1"]%string.

Definition data_line_2 : str :=
  tsv ["c1"; "."; "."; "."; "."; "."; "."; "."; "."; "1/1"]%string.

Definition scenario : list str := [header_line; data_line_1; data_line_2].


(** A data line whose genotype is the missing-data sentinel. *)
Definition missing_gt_line : str :=
  tsv ["c1"; "."; "."; "."; "."; "."; "."; "."; "."; "./."]%string.

(** A data line with an empty first column, so that it begins with a tab:
    ten columns, the last one a genotype. *)
Definition leading_tab_line : str :=
  tsv [""; "100"; "."; "A"; "T"; "."; "."; "."; "GT"; "./."]%string.



(** A data line of three columns. *)
Definition short_line : str := tsv ["c1"; "100"; "."]%string.

(** ** Evaluation of [list(map(f, xs))] *)

Lemma list_map_Ok_iff {A B : Type} (f : A -> res B) xs ys :
  list_map f xs = Ok ys <-> Forall2 (fun x y => f x = Ok y) xs ys.
Proof.
  revert ys; induction xs as [|x xs IH]; intros ys; simpl.
  - split; intros H.
    + injection H as <-. constructor.
    + inversion H. reflexivity.
  - split.
    + destruct (f x) as [y|e] eqn:Hx; simpl; [|discriminate].
      destruct (list_map f xs) as [ys'|e] eqn:Hxs; simpl; [|discriminate].
      intros H; injection H as <-.
      constructor; [assumption|]. apply IH. reflexivity.
    + intros H. inversion H as [|? y ? ys' Hy Hys]; subst.
      rewrite Hy. simpl. apply IH in Hys. rewrite Hys. reflexivity.
Qed.

Lemma is_ok_list_map {A B : Type} (f : A -> res B) xs :
  is_ok (list_map f xs) = forallb (fun x => is_ok (f x)) xs.
Proof.
  induction xs as [|x xs IH]; simpl; [reflexivity|].
  destruct (f x); simpl; [|reflexivity].
  rewrite <- IH. destruct (list_map f xs); reflexivity.
Qed.

(** The first element [f] rejects decides the exception. *)
Lemma list_map_Err_iff {A B : Type} (f : A -> res B) xs e :
  list_map f xs = Err e <->
  exists pre x post,
    xs = pre ++ x :: post
    /\ Forall (fun y => is_ok (f y) = true) pre
    /\ f x = Err e.
Proof.
  induction xs as [|x xs IH]; simpl.
  - split; [discriminate|].
    intros (pre & y & post & H & _). destruct pre; discriminate.
  - destruct (f x) as [y|e'] eqn:Hx; simpl.
    + split.
      * destruct (list_map f xs) as [ys|e''] eqn:Hxs; simpl; [discriminate|].
        intros H; injection H as ->.
        destruct (proj1 IH eq_refl) as (pre & z & post & -> & Hpre & Hz).
        exists (x :: pre), z, post. repeat split; [|assumption].
        constructor; [rewrite Hx; reflexivity | assumption].
      * intros (pre & z & post & H & Hpre & Hz).
        destruct pre as [|p pre]; simpl in H; injection H as <- ->.
        -- rewrite Hx in Hz. discriminate.
        -- inversion Hpre; subst.
           assert (Hxs : list_map f (pre ++ z :: post) = Err e)
             by (apply IH; exists pre, z, post; auto).
           rewrite Hxs. reflexivity.
    + split.
      * intros H; injection H as ->. exists [], x, xs. auto.
      * intros (pre & z & post & H & Hpre & Hz).
        destruct pre as [|p pre]; simpl in H; injection H as <- ->.
        -- congruence.
        -- inversion Hpre as [|? ? Hp]; subst. rewrite Hx in Hp. discriminate.
Qed.

(** When the values are thrown away, only the sequence of calls counts. *)
Lemma discard_list_map_app {A B C : Type} (f : A -> res B) xs ys (k : res C) :
  (_ <- list_map f (xs ++ ys) ;; k)
  = (_ <- list_map f xs ;; _ <- list_map f ys ;; k).
Proof.
  induction xs as [|x xs IH]; simpl; [reflexivity|].
  destruct (f x); simpl; [|reflexivity].
  destruct (list_map f xs) eqn:Hxs; destruct (list_map f (xs ++ ys)) eqn:Happ;
    simpl in *; auto.
Qed.

Lemma discard_list_map_nested {A B C D : Type}
    (f : B -> res C) (g : A -> list B) xs (k : res D) :
  (_ <- list_map (fun x => list_map f (g x)) xs ;; k)
  = (_ <- list_map f (flat_map g xs) ;; k).
Proof.
  induction xs as [|x xs IH]; simpl; [reflexivity|].
  rewrite discard_list_map_app.
  destruct (list_map f (g x)); simpl; [|reflexivity].
  rewrite <- IH.
  destruct (list_map (fun x0 => list_map f (g x0)) xs); reflexivity.
Qed.

(** ** The loop *)

Lemma data_lines_cons line fhand :
  data_lines (line :: fhand)
  = if is_header line then data_lines fhand else line :: data_lines fhand.
Proof. unfold data_lines; simpl. destruct (is_header line); reflexivity. Qed.

Lemma pieces_read_cons line fhand :
  pieces_read (line :: fhand)
  = if is_header line then pieces_read fhand
    else flat_map (split SLASH) (sample_fields line) ++ pieces_read fhand.
Proof.
  unfold pieces_read. rewrite data_lines_cons.
  destruct (is_header line); reflexivity.
Qed.

(** The loop is the conversion of all pieces in turn, followed by the
    count of the data lines. *)
Lemma for_loop_pieces fhand : forall snps_read,
  for_loop fhand snps_read
  = (_ <- list_map int (pieces_read fhand) ;;
     Ok (snps_read + Z.of_nat (length (data_lines fhand)))).
Proof.
  induction fhand as [|line fhand IH]; intros n; simpl for_loop.
  - simpl. f_equal. lia.
  - rewrite pieces_read_cons, data_lines_cons. unfold loop_body.
    destruct (is_header line); simpl bind.
    + apply IH.
    + rewrite discard_list_map_app. unfold gts, parse_gt.
      rewrite <- (discard_list_map_nested int (split SLASH)).
      destruct (list_map _ (sample_fields line)); simpl; [|reflexivity].
      rewrite IH. simpl length.
      replace (n + 1 + Z.of_nat (length (data_lines fhand)))
        with (n + Z.of_nat (S (length (data_lines fhand)))) by lia.
      reflexivity.
Qed.

Lemma Forall_forallb {A : Type} (g : A -> bool) xs :
  Forall (fun x => g x = true) xs <-> forallb g xs = true.
Proof. rewrite Forall_forall, forallb_forall. reflexivity. Qed.

Lemma is_ok_gts line :
  is_ok (gts line)
  = forallb (fun p => is_ok (int p)) (flat_map (split SLASH) (sample_fields line)).
Proof.
  rewrite <- is_ok_list_map. unfold gts, parse_gt.
  pose proof (discard_list_map_nested int (split SLASH)
                (sample_fields line) (Ok tt)) as E.
  destruct (list_map _ (sample_fields line));
    destruct (list_map int _); simpl in *; congruence.
Qed.

Lemma pieces_ok_iff fhand :
  Forall (fun p => is_ok (int p) = true) (pieces_read fhand)
  <-> Forall (fun line => is_header line = false -> is_ok (gts line) = true) fhand.
Proof.
  induction fhand as [|line fhand IH].
  - split; constructor.
  - rewrite pieces_read_cons.
    destruct (is_header line) eqn:Hh.
    + rewrite IH. split.
      * intros H. constructor; [rewrite Hh; intros; discriminate | assumption].
      * intros H. inversion H; assumption.
    + rewrite Forall_app, IH, (Forall_forallb (fun p => is_ok (int p))),
        <- is_ok_gts.
      split.
      * intros [H1 H2]. constructor; auto.
      * intros H. inversion H; subst. rewrite Hh in *. auto.
Qed.

Lemma for_loop_Ok_iff fhand snps_read :
  is_ok (for_loop fhand snps_read) = true
  <-> Forall (fun line => is_header line = false -> is_ok (gts line) = true) fhand.
Proof.
  rewrite <- pieces_ok_iff, Forall_forallb, <- is_ok_list_map, for_loop_pieces.
  destruct (list_map int (pieces_read fhand)); simpl; reflexivity.
Qed.

Lemma for_loop_count fhand snps_read :
  Forall (fun line => is_header line = false -> is_ok (gts line) = true) fhand ->
  for_loop fhand snps_read
  = Ok (snps_read + Z.of_nat (length (data_lines fhand))).
Proof.
  intros H. apply (for_loop_Ok_iff fhand snps_read) in H.
  rewrite for_loop_pieces in *.
  destruct (list_map int (pieces_read fhand)); [reflexivity | discriminate].
Qed.

Lemma main_Ok fhand out snps_read :
  for_loop fhand 0 = Ok snps_read ->
  main fhand out
  = Outcome (print (lit "SNPs read " ++ str_of_int snps_read) out) (Ok tt).
Proof. intros H. unfold main. rewrite H. reflexivity. Qed.

Lemma main_Err fhand out e :
  for_loop fhand 0 = Err e -> main fhand out = Outcome out (Err e).
Proof. intros H. unfold main. rewrite H. reflexivity. Qed.

Lemma headers_and_data fhand :
  (length (filter is_header fhand) + length (data_lines fhand))%nat
  = length fhand.
Proof.
  unfold data_lines. induction fhand as [|line fhand IH]; simpl; [reflexivity|].
  destruct (is_header line); simpl; lia.
Qed.

Lemma data_lines_nil_iff fhand :
  data_lines fhand = [] <-> Forall (fun line => is_header line = true) fhand.
Proof.
  induction fhand as [|line fhand IH]; [split; constructor|].
  rewrite data_lines_cons. destruct (is_header line) eqn:Hh.
  - rewrite IH. split; intros H; [constructor; auto | inversion H; auto].
  - split; [discriminate|]. intros H. inversion H. congruence.
Qed.

Lemma data_lines_Permutation fhand fhand' :
  Permutation fhand fhand' -> Permutation (data_lines fhand) (data_lines fhand').
Proof.
  induction 1 as [|line ? ? ? IH|l1 l2 ?|]; rewrite ?data_lines_cons.
  - constructor.
  - destruct (is_header line); auto.
  - destruct (is_header l1), (is_header l2); auto. constructor.
  - etransitivity; eassumption.
Qed.

(** C1: if every data line of the file parses, the count the script reports
    is the number of lines that do not start with [#]. For a file of [H]
    header lines and [D] data lines it is [D], whatever the headers contain
    and wherever they stand (every reordering of the lines gives the same
    count), and it is 0 when all lines are headers. *)
Theorem count_is_number_of_data_lines fhand (H D : nat) :
  Forall (fun line =>
            startswith line (lit "#") = false -> is_ok (gts line) = true)
         fhand ->
  length (filter (fun line => startswith line (lit "#")) fhand) = H ->
  length (filter (fun line => negb (startswith line (lit "#"))) fhand) = D ->
  for_loop fhand 0 = Ok (Z.of_nat D)
  /\ (forall out,
        main fhand out
        = Outcome (out ++ lit "SNPs read " ++ str_of_int (Z.of_nat D) ++ [LF])
                  (Ok tt))
  /\ (H + D = length fhand)%nat
  /\ (Forall (fun line => startswith line (lit "#") = true) fhand -> D = 0%nat)
  /\ (forall fhand', Permutation fhand fhand' ->
        for_loop fhand' 0 = Ok (Z.of_nat D)).
Proof.
  intros Hok HH HD.
  change (length (filter is_header fhand) = H) in HH.
  change (length (data_lines fhand) = D) in HD.
  assert (Hrun : for_loop fhand 0 = Ok (Z.of_nat D)).
  { rewrite (for_loop_count _ _ Hok), HD. reflexivity. }
  split; [exact Hrun|]. split; [|split; [|split]].
  - intros out. rewrite (main_Ok _ _ _ Hrun). unfold print.
    rewrite <- app_assoc. reflexivity.
  - rewrite <- HH, <- HD. apply headers_and_data.
  - intros Hall. apply data_lines_nil_iff in Hall.
    rewrite Hall in HD. symmetry. exact HD.
  - intros fhand' Hperm. rewrite for_loop_count.
    + rewrite <- (Permutation_length (data_lines_Permutation _ _ Hperm)), HD.
      reflexivity.
    + eapply Permutation_Forall; eassumption.
Qed.

(** C7: if some data line of the file raises a format error, the script
    ends with that exception and standard output is left as it was:
    nothing is printed, whatever number of data lines came before. *)
Theorem format_error_prints_nothing fhand out :
  Exists (fun line =>
            startswith line (lit "#") = false /\ is_ok (gts line) = false)
         fhand ->
  exists e, main fhand out = Outcome out (Err e).
Proof.
  intros Hbad.
  destruct (for_loop fhand 0) as [n|e] eqn:Hrun.
  - exfalso.
    assert (Hok : is_ok (for_loop fhand 0) = true) by (rewrite Hrun; reflexivity).
    apply for_loop_Ok_iff in Hok. rewrite Forall_forall in Hok.
    apply Exists_exists in Hbad. destruct Hbad as (line & Hin & Hh & Hg).
    specialize (Hok line Hin Hh). congruence.
  - exists e. apply main_Err. assumption.
Qed.

Lemma fields_spec_fields line :
  begins_with_space line = false -> fields line = spec_fields line.
Proof.
  intros H. unfold fields, spec_fields, strip.
  destruct line as [|c line]; [reflexivity|].
  simpl in H. simpl lstrip. rewrite H. reflexivity.
Qed.

Lemma pieces_read_spec_pieces fhand :
  Forall (fun line => is_header line = false -> begins_with_space line = false)
         fhand ->
  pieces_read fhand = spec_pieces fhand.
Proof.
  unfold pieces_read, spec_pieces.
  induction 1 as [|line fhand Hline _ IH]; [reflexivity|].
  rewrite data_lines_cons. destruct (is_header line) eqn:Hh; [exact IH|].
  simpl. rewrite IH. unfold sample_fields.
  rewrite (fields_spec_fields line (Hline eq_refl)). reflexivity.
Qed.

(** C2, as the script has it: the genotype tokens that decide are the
    fields from index 9 onward that are left once the line is stripped of
    white space at both ends. The script hands their pieces to [int] in
    the order of the file; it ends with the exception of the first piece
    that [int] rejects, and with no other, and it ends normally when [int]
    accepts every piece. The pieces [.] and the empty string are rejected.
    When no data line begins with white space these pieces are the pieces
    of the genotype tokens as the specification describes them. *)
Theorem format_error_iff_bad_piece fhand out :
  (forall e,
     main fhand out = Outcome out (Err e)
     <-> exists before piece after,
           pieces_read fhand = before ++ piece :: after
           /\ Forall (fun p => is_ok (int p) = true) before
           /\ int piece = Err e)
  /\ (status (main fhand out) = Ok tt
      <-> Forall (fun p => is_ok (int p) = true) (pieces_read fhand))
  /\ int (lit ".") = Err (ValueError_invalid_literal (lit "."))
  /\ int (lit "") = Err (ValueError_invalid_literal (lit ""))
  /\ (Forall (fun line =>
                startswith line (lit "#") = false ->
                begins_with_space line = false) fhand ->
      pieces_read fhand = spec_pieces fhand).
Proof.
  split; [|split; [|split; [reflexivity|split; [reflexivity|]]]].
  - intros e. rewrite <- list_map_Err_iff. unfold main.
    rewrite for_loop_pieces.
    destruct (list_map int (pieces_read fhand)); simpl; split; congruence.
  - rewrite Forall_forallb, <- is_ok_list_map. unfold main.
    rewrite for_loop_pieces.
    destruct (list_map int (pieces_read fhand)); simpl; split; congruence.
  - apply pieces_read_spec_pieces.
Qed.

(** ** Stripping and splitting *)

Lemma lstrip_spec s :
  exists lead,
    s = lead ++ lstrip s
    /\ forallb isspace lead = true
    /\ (forall c rest, lstrip s = c :: rest -> isspace c = false).
Proof.
  induction s as [|c s (lead & Hs & Hlead & Hhd)]; simpl.
  - exists []. repeat split. discriminate.
  - destruct (isspace c) eqn:Hc.
    + exists (c :: lead). simpl. rewrite Hc, Hlead, <- Hs. auto.
    + exists []. repeat split. intros c' rest H. injection H as <- _. exact Hc.
Qed.

Lemma lstrip_nonspace c s : isspace c = false -> lstrip (c :: s) = c :: s.
Proof. intros H. simpl. rewrite H. reflexivity. Qed.

Lemma lstrip_app_nonspace s c rest :
  isspace c = false -> lstrip (s ++ c :: rest) = lstrip s ++ c :: rest.
Proof.
  intros Hc. induction s as [|d s IH]; simpl.
  - rewrite Hc. reflexivity.
  - destruct (isspace d); [exact IH | reflexivity].
Qed.

Lemma forallb_rev {A : Type} (g : A -> bool) xs :
  forallb g (rev xs) = forallb g xs.
Proof.
  induction xs as [|x xs IH]; simpl; [reflexivity|].
  rewrite forallb_app, IH. simpl. rewrite andb_true_r. apply andb_comm.
Qed.

Lemma rstrip_spec s :
  exists trail,
    s = rstrip s ++ trail
    /\ forallb isspace trail = true
    /\ (forall c rest, rstrip s = rest ++ [c] -> isspace c = false).
Proof.
  unfold rstrip. destruct (lstrip_spec (rev s)) as (lead & Hs & Hlead & Hhd).
  exists (rev lead). repeat split.
  - rewrite <- rev_app_distr, <- Hs, rev_involutive. reflexivity.
  - rewrite forallb_rev. exact Hlead.
  - intros c rest H. apply (Hhd c (rev rest)).
    rewrite <- (rev_involutive (lstrip (rev s))), H, rev_unit. reflexivity.
Qed.

(** Stripping at the right leaves the first character alone when it is
    not white space. *)
Lemma rstrip_cons_nonspace c s :
  isspace c = false -> exists rest, rstrip (c :: s) = c :: rest.
Proof.
  intros Hc. unfold rstrip. simpl rev.
  rewrite (lstrip_app_nonspace (rev s) c [] Hc), rev_unit.
  eexists. reflexivity.
Qed.

Lemma length_split sep s :
  length (split sep s) = S (count_occ N.eq_dec s sep).
Proof.
  induction s as [|c s IH]; simpl; [reflexivity|].
  destruct (N.eqb_spec c sep) as [->|Hne].
  - destruct (N.eq_dec sep sep); [|contradiction]. simpl. rewrite IH. reflexivity.
  - destruct (N.eq_dec c sep); [contradiction|].
    destruct (split sep s); simpl in *; [discriminate IH | exact IH].
Qed.

Lemma count_occ_strip_le s c :
  (count_occ N.eq_dec (strip s) c <= count_occ N.eq_dec s c)%nat.
Proof.
  unfold strip.
  destruct (lstrip_spec s) as (lead & Hs & _).
  destruct (rstrip_spec (lstrip s)) as (trail & Hr & _).
  apply (f_equal (fun l => count_occ N.eq_dec l c)) in Hs, Hr.
  cbv beta in Hs, Hr. rewrite count_occ_app in Hs, Hr.
  unfold str, char in *. lia.
Qed.

Lemma length_fields_le line :
  (length (fields line) <= length (split TAB line))%nat.
Proof.
  unfold fields. rewrite !length_split.
  pose proof (count_occ_strip_le line TAB). lia.
Qed.

(** C9: a line that is not a header and has at most nine tab-separated
    fields, as the script splits it or as it stands in the file, has no
    sample column: nothing is handed to [parse_gt], no exception is
    raised and the counter grows by one. A blank line is such a line. The
    script has no check of the number of fields. *)
Theorem short_line_is_counted snps_read :
  (forall line,
     startswith line (lit "#") = false ->
     (length (split TAB (strip line)) <= 9)%nat
       \/ (length (split TAB line) <= 9)%nat ->
     sample_fields line = []
     /\ gts line = Ok []
     /\ loop_body line snps_read = Ok (snps_read + 1))
  /\ loop_body [LF] snps_read = Ok (snps_read + 1)
  /\ for_loop [[LF]] snps_read = Ok (snps_read + 1).
Proof.
  split; [|split; reflexivity].
  intros line Hh Hlen.
  assert (Hf : (length (fields line) <= 9)%nat).
  { destruct Hlen as [Hlen|Hlen]; [exact Hlen|].
    pose proof (length_fields_le line). lia. }
  assert (Hs : sample_fields line = [])
    by (unfold sample_fields; apply skipn_all2; exact Hf).
  unfold loop_body, gts. change (is_header line) with (startswith line (lit "#")).
  rewrite Hh, Hs. auto.
Qed.

(** C5: the header test reads the raw line. A line whose first character
    is [#] leaves the counter as it is and nothing of it is parsed,
    whatever follows the [#]. A line that begins with white space followed
    by [#] is not a header: its sample columns are parsed and it is
    counted. *)
Theorem header_test_on_raw_line rest snps_read :
  loop_body (HASH :: rest) snps_read = Ok snps_read
  /\ (forall ws,
        ws <> [] -> forallb isspace ws = true ->
        startswith (ws ++ HASH :: rest) (lit "#") = false
        /\ loop_body (ws ++ HASH :: rest) snps_read
           = (_ <- gts (ws ++ HASH :: rest) ;; Ok (snps_read + 1))).
Proof.
  split; [reflexivity|].
  intros ws Hne Hws.
  destruct ws as [|c ws]; [contradiction|]. simpl in Hws.
  apply andb_true_iff in Hws. destruct Hws as [Hc _].
  assert (Hh : startswith ((c :: ws) ++ HASH :: rest) (lit "#") = false).
  { simpl. destruct (N.eqb_spec c 35) as [->|]; [discriminate Hc | reflexivity]. }
  split; [exact Hh|].
  unfold loop_body. change (is_header ?l) with (startswith l (lit "#")).
  rewrite Hh. reflexivity.
Qed.

(** C3, as the script has it: [strip] removes white space at both ends of
    the line before it is split on tabs. The line is its stripped text
    between a run of white space on the left and one on the right, and the
    stripped text neither begins nor ends with white space; so a leading
    tab or blank is dropped and takes no part in the split. When the line
    does not begin with white space, the fields are those of the line
    stripped on the right only. *)
Theorem strip_removes_both_ends line :
  (exists lead trail,
     line = lead ++ strip line ++ trail
     /\ forallb isspace lead = true
     /\ forallb isspace trail = true
     /\ (forall c rest, strip line = c :: rest -> isspace c = false)
     /\ (forall c rest, strip line = rest ++ [c] -> isspace c = false))
  /\ (forall c, isspace c = true -> fields (c :: line) = fields line)
  /\ (forall c rest,
        line = c :: rest -> isspace c = false ->
        fields line = spec_fields line).
Proof.
  split; [|split].
  - unfold strip.
    destruct (lstrip_spec line) as (lead & Hs & Hlead & Hhd).
    destruct (rstrip_spec (lstrip line)) as (trail & Hr & Htrail & Hlast).
    exists lead, trail. repeat split; auto.
    + rewrite <- Hr. exact Hs.
    + intros c rest H.
      destruct (lstrip line) as [|d s] eqn:Hl; [discriminate H|].
      pose proof (Hhd d s eq_refl) as Hd.
      destruct (rstrip_cons_nonspace d s Hd) as (rest' & Hr').
      rewrite Hr' in H. injection H as <- _. exact Hd.
  - intros c Hc. unfold fields, strip. simpl. rewrite Hc. reflexivity.
  - intros c rest -> Hc. unfold fields, spec_fields, strip.
    rewrite (lstrip_nonspace c rest Hc). reflexivity.
Qed.

(** ** Order of the sample columns *)






(** ** Pieces of a token *)

Lemma split_no_sep sep p : ~ In sep p -> split sep p = [p].
Proof.
  induction p as [|c p IH]; intros Hn; simpl; [reflexivity|].
  destruct (N.eqb_spec c sep) as [->|_]; [exfalso; apply Hn; left; reflexivity|].
  rewrite IH; [reflexivity|]. intros Hin. apply Hn. right. exact Hin.
Qed.

Lemma split_app_sep sep p s :
  ~ In sep p -> split sep (p ++ sep :: s) = p :: split sep s.
Proof.
  induction p as [|c p IH]; intros Hn; simpl.
  - rewrite N.eqb_refl. reflexivity.
  - destruct (N.eqb_spec c sep) as [->|_]; [exfalso; apply Hn; left; reflexivity|].
    rewrite IH; [reflexivity|]. intros Hin. apply Hn. right. exact Hin.
Qed.

Lemma split_join sep parts :
  parts <> [] -> Forall (fun p => ~ In sep p) parts ->
  split sep (join sep parts) = parts.
Proof.
  induction parts as [|p parts IH]; intros Hne Hall; [contradiction|].
  inversion Hall as [|? ? Hp Hps]; subst.
  destruct parts as [|q parts].
  - simpl. apply split_no_sep. exact Hp.
  - change (join sep (p :: q :: parts)) with (p ++ sep :: join sep (q :: parts)).
    rewrite split_app_sep by exact Hp. rewrite IH; [reflexivity|discriminate|exact Hps].
Qed.

Lemma skip_spaces_spec s :
  exists sp, s = sp ++ skip_spaces s /\ forallb c_isspace sp = true.
Proof.
  induction s as [|c s (sp & Hs & Hsp)]; simpl.
  - exists []. auto.
  - destruct (c_isspace c) eqn:Hc.
    + exists (c :: sp). simpl. rewrite Hc, Hsp, <- Hs. auto.
    + exists []. auto.
Qed.

Lemma c_isspace_int_char c : c_isspace c = true -> int_char c = true.
Proof. intros H. unfold int_char. rewrite H. reflexivity. Qed.

Lemma scan_spec s : forall prev acc digits z digits' rest,
  scan s prev acc digits = Some (z, digits', rest) ->
  exists consumed, s = consumed ++ rest /\ forallb int_char consumed = true.
Proof.
  induction s as [|c s IH]; intros prev acc digits z digits' rest; simpl.
  - destruct prev; [discriminate|]. intros H; injection H as _ _ <-.
    exists []. auto.
  - destruct (N.eqb_spec c UNDERSCORE) as [->|Hu].
    + destruct prev; [discriminate|]. intros H.
      destruct (IH _ _ _ _ _ _ H) as (consumed & -> & Hc).
      exists (UNDERSCORE :: consumed). simpl. rewrite Hc. auto.
    + unfold digit_value. destruct (in_range 48 57 c) eqn:Hd.
      * intros H. destruct (IH _ _ _ _ _ _ H) as (consumed & -> & Hc).
        exists (c :: consumed). simpl. rewrite Hc.
        unfold int_char, is_ascii_digit. rewrite Hd, !orb_true_r. auto.
      * destruct prev; [discriminate|]. intros H; injection H as _ _ <-.
        exists []. auto.
Qed.

(** A string that [int] accepts gives a buffer of blanks, signs,
    underscores and ASCII digits. *)
Lemma int_Ok_chars u z :
  int u = Ok z -> forallb int_char (transform u) = true.
Proof.
  unfold int. destruct (skip_spaces_spec (transform u)) as (sp & Hb & Hsp).
  assert (Hsp' : forallb int_char sp = true).
  { apply forallb_forall. intros c Hin. apply c_isspace_int_char.
    revert c Hin. apply forallb_forall. exact Hsp. }
  rewrite Hb at 2. rewrite forallb_app, Hsp'. simpl.
  assert (Hscan : forall sign s,
    (if startswith s [UNDERSCORE] then Err (ValueError_invalid_literal u)
     else match scan s false 0 0 with
          | None => Err (ValueError_invalid_literal u)
          | Some (z0, digits, rest) =>
              if exceeds_limit digits then Err (ValueError_exceeds_limit digits)
              else if (digits =? 0)%nat then Err (ValueError_invalid_literal u)
              else match skip_spaces rest with
                   | [] => Ok (sign * z0)
                   | _ :: _ => Err (ValueError_invalid_literal u)
                   end
          end) = Ok z -> forallb int_char s = true).
  { intros sign s. destruct (startswith s [UNDERSCORE]); [discriminate|].
    destruct (scan s false 0 0) as [[[z0 digits] rest]|] eqn:Hs; [|discriminate].
    destruct (exceeds_limit digits); [discriminate|].
    destruct (digits =? 0)%nat; [discriminate|].
    destruct (skip_spaces_spec rest) as (sp2 & Hr & Hsp2).
    destruct (skip_spaces rest); [|discriminate]. intros _.
    destruct (scan_spec _ _ _ _ _ _ _ Hs) as (consumed & -> & Hc).
    rewrite forallb_app, Hc, Hr, app_nil_r. simpl.
    apply forallb_forall. intros c Hin. apply c_isspace_int_char.
    revert c Hin. apply forallb_forall. exact Hsp2. }
  destruct (skip_spaces (transform u)) as [|c s]; [intros _; reflexivity|].
  destruct (N.eqb_spec c PLUS) as [->|Hp].
  { intros H. simpl. exact (Hscan _ _ H). }
  destruct (N.eqb_spec c MINUS) as [->|Hm].
  { intros H. simpl. exact (Hscan _ _ H). }
  intros H. exact (Hscan _ _ H).
Qed.

Lemma transform_loop_slash u :
  In SLASH u -> In SLASH (transform_loop u) \/ In QUESTION (transform_loop u).
Proof.
  induction u as [|ch u IH]; intros Hin; [contradiction|]. simpl.
  destruct Hin as [->|Hin]; [left; left; reflexivity|].
  destruct (ch <? 127)%N.
  - destruct (IH Hin); [left | right]; right; assumption.
  - destruct (isspace ch).
    + destruct (IH Hin); [left | right]; right; assumption.
    + destruct (todecimal ch).
      * destruct (IH Hin); [left | right]; right; assumption.
      * right. left. reflexivity.
Qed.

(** No string that [int] accepts contains a slash. *)
Lemma int_Ok_no_slash u z : int u = Ok z -> ~ In SLASH u.
Proof.
  intros H Hin. apply int_Ok_chars in H.
  assert (Hb : In SLASH (transform u) \/ In QUESTION (transform u)).
  { unfold transform.
    destruct (forallb (fun ch => (ch <? 128)%N) u); [left; exact Hin|].
    apply transform_loop_slash. exact Hin. }
  rewrite forallb_forall in H.
  destruct Hb as [Hb|Hb]; apply H in Hb; discriminate Hb.
Qed.

(** C4: a token [a1/a2/.../an], [n >= 1], all of whose pieces [int]
    accepts, splits back into these pieces and [parse_gt] returns their
    values in the same order, for every number of pieces. The counter does
    not read the values: a data line that parses adds one to it whatever
    was decoded. *)
Theorem parse_gt_decodes_in_order pieces alleles :
  pieces <> [] ->
  Forall2 (fun piece allele => int piece = Ok allele) pieces alleles ->
  split SLASH (join SLASH pieces) = pieces
  /\ parse_gt (join SLASH pieces) = Ok alleles
  /\ (forall line snps_read decoded,
        startswith line (lit "#") = false ->
        In (join SLASH pieces) (sample_fields line) ->
        gts line = Ok decoded ->
        loop_body line snps_read = Ok (snps_read + 1)).
Proof.
  intros Hne Hall.
  assert (Hsplit : split SLASH (join SLASH pieces) = pieces).
  { apply split_join; [exact Hne|].
    clear Hne. induction Hall as [|p a ps zs Hp _ IH]; constructor.
    - exact (int_Ok_no_slash _ _ Hp).
    - exact IH. }
  split; [exact Hsplit|]. split.
  - unfold parse_gt. rewrite Hsplit. apply list_map_Ok_iff. exact Hall.
  - intros line n decoded Hh _ Hg. unfold loop_body.
    change (is_header line) with (startswith line (lit "#")).
    rewrite Hh, Hg. reflexivity.
Qed.

(** ** Decimal notation *)

Lemma is_ascii_digit_range c :
  is_ascii_digit c = true <-> (48 <= c <= 57)%N.
Proof.
  unfold is_ascii_digit, in_range.
  rewrite andb_true_iff, !N.leb_le. reflexivity.
Qed.

Lemma digit_facts c :
  is_ascii_digit c = true ->
  (c <? 128)%N = true /\ c_isspace c = false
  /\ (c =? PLUS)%N = false /\ (c =? MINUS)%N = false
  /\ (c =? UNDERSCORE)%N = false
  /\ digit_value c = Some (Z.of_N c - 48) /\ c <> SLASH.
Proof.
  intros H. unfold digit_value. fold (is_ascii_digit c). rewrite H.
  apply is_ascii_digit_range in H.
  unfold c_isspace, in_range, PLUS, MINUS, UNDERSCORE, SPACE, SLASH.
  repeat split;
    repeat match goal with
           | |- context [(?a <=? ?b)%N] => destruct (N.leb_spec a b)
           | |- context [(?a <? ?b)%N] => destruct (N.ltb_spec a b)
           | |- context [(?a =? ?b)%N] => destruct (N.eqb_spec a b)
           end; simpl; try reflexivity; lia.
Qed.

Lemma horner_app acc ds1 ds2 :
  horner acc (ds1 ++ ds2) = horner (horner acc ds1) ds2.
Proof. apply fold_left_app. Qed.

Lemma decimal_digits_spec fuel : forall n,
  0 <= n < 2 ^ Z.of_nat (S fuel) ->
  decimal_digits (S fuel) n <> []
  /\ forallb is_ascii_digit (decimal_digits (S fuel) n) = true
  /\ forall acc,
       horner acc (decimal_digits (S fuel) n)
       = acc * 10 ^ Z.of_nat (length (decimal_digits (S fuel) n)) + n.
Proof.
  induction fuel as [|fuel IH]; intros n Hn.
  - assert (Hlt : n < 10) by (change (2 ^ Z.of_nat 1) with 2 in Hn; lia).
    cbn [decimal_digits]. destruct (Z.ltb_spec n 10); [|lia].
    rewrite Z.mod_small by lia. cbn [app forallb length].
    repeat split; [discriminate| |].
    + rewrite andb_true_r. apply is_ascii_digit_range. lia.
    + intros acc. unfold horner. cbn [fold_left]. change (Z.of_nat 1) with 1. lia.
  - change (decimal_digits (S (S fuel)) n)
      with ((if n <? 10 then [] else decimal_digits (S fuel) (n / 10))
              ++ [Z.to_N (48 + n mod 10)]).
    pose proof (Z.mod_pos_bound n 10 ltac:(lia)) as Hr.
    assert (Hlast : is_ascii_digit (Z.to_N (48 + n mod 10)) = true)
      by (apply is_ascii_digit_range; lia).
    destruct (Z.ltb_spec n 10).
    + rewrite Z.mod_small by lia. rewrite Z.mod_small in Hlast by lia.
      cbn [app forallb length].
      repeat split; [discriminate|rewrite Hlast; reflexivity|].
      intros acc. unfold horner. cbn [fold_left]. change (Z.of_nat 1) with 1. lia.
    + assert (Hq : 0 <= n / 10 < 2 ^ Z.of_nat (S fuel)).
      { split; [apply Z.div_pos; lia|].
        apply Z.div_lt_upper_bound; [lia|].
        rewrite (Nat2Z.inj_succ (S fuel)), Z.pow_succ_r in Hn by lia. lia. }
      destruct (IH _ Hq) as (Hne & Hd & Hh).
      repeat split.
      * intros E. apply app_eq_nil in E. destruct E; discriminate.
      * rewrite forallb_app, Hd. cbn [forallb andb]. rewrite Hlast. reflexivity.
      * intros acc. rewrite horner_app, Hh, length_app. cbn [length].
        rewrite Nat2Z.inj_add, Z.pow_add_r by lia.
        unfold horner at 1. cbn [fold_left]. change (Z.of_nat 1) with 1.
        pose proof (Z.div_mod n 10 ltac:(lia)). lia.
Qed.

Lemma str_of_int_nonneg z :
  0 <= z ->
  str_of_int z <> []
  /\ forallb is_ascii_digit (str_of_int z) = true
  /\ decimal_value (str_of_int z) = z.
Proof.
  intros Hz. unfold str_of_int. destruct (Z.ltb_spec z 0); [lia|].
  assert (Hb : 0 <= z < 2 ^ Z.of_nat (S (Z.to_nat (Z.log2 z)))).
  { rewrite Nat2Z.inj_succ, Z2Nat.id by apply Z.log2_nonneg.
    destruct (Z.eq_dec z 0) as [->|]; [simpl; lia|].
    pose proof (Z.log2_spec z ltac:(lia)). lia. }
  destruct (decimal_digits_spec _ _ Hb) as (Hne & Hd & Hh).
  repeat split; [exact Hne | exact Hd |].
  unfold decimal_value. rewrite Hh. lia.
Qed.

Lemma str_of_int_neg z :
  z < 0 ->
  exists ds,
    str_of_int z = MINUS :: ds /\ ds <> []
    /\ forallb is_ascii_digit ds = true /\ decimal_value ds = - z.
Proof.
  intros Hz. unfold str_of_int. destruct (Z.ltb_spec z 0); [|lia].
  assert (Hb : 0 <= - z < 2 ^ Z.of_nat (S (Z.to_nat (Z.log2 (- z))))).
  { rewrite Nat2Z.inj_succ, Z2Nat.id by apply Z.log2_nonneg.
    pose proof (Z.log2_spec (- z) ltac:(lia)). lia. }
  destruct (decimal_digits_spec _ _ Hb) as (Hne & Hd & Hh).
  eexists. repeat split; [exact Hne | exact Hd |].
  unfold decimal_value. rewrite Hh. lia.
Qed.

Lemma scan_digits ds :
  forallb is_ascii_digit ds = true ->
  forall prev acc digits,
    ds <> [] \/ prev = false ->
    scan ds prev acc digits
    = Some (horner acc ds, (digits + length ds)%nat, []).
Proof.
  induction ds as [|c ds IH]; intros Hd prev acc digits Hp.
  - destruct Hp as [Hp| ->]; [contradiction|]. simpl.
    rewrite Nat.add_0_r. reflexivity.
  - simpl in Hd. apply andb_true_iff in Hd. destruct Hd as [Hc Hd].
    destruct (digit_facts c Hc) as (_ & _ & _ & _ & Hu & Hv & _).
    simpl scan. rewrite Hu, Hv.
    rewrite (IH Hd false _ _ (or_intror eq_refl)). simpl length.
    unfold horner. simpl fold_left. do 3 f_equal. lia.
Qed.

Lemma transform_ascii u :
  forallb (fun ch => (ch <? 128)%N) u = true -> transform u = u.
Proof. intros H. unfold transform. rewrite H. reflexivity. Qed.

Lemma digits_ascii ds :
  forallb is_ascii_digit ds = true ->
  forallb (fun ch => (ch <? 128)%N) ds = true.
Proof.
  intros H. apply forallb_forall. intros c Hin.
  rewrite forallb_forall in H. apply (digit_facts c (H c Hin)).
Qed.

(** [int] reads a string of at most 640 ASCII digits, with or without a
    minus sign, as the number it denotes. *)
Lemma int_digits ds :
  ds <> [] -> forallb is_ascii_digit ds = true ->
  (length ds <= MAX_STR_DIGITS_THRESHOLD)%nat ->
  int ds = Ok (decimal_value ds)
  /\ int (MINUS :: ds) = Ok (- decimal_value ds).
Proof.
  intros Hne Hd Hlen.
  pose proof (digits_ascii ds Hd) as Hascii.
  pose proof (scan_digits ds Hd false 0 0%nat (or_intror eq_refl)) as Hscan.
  rewrite Nat.add_0_l in Hscan.
  assert (Hlim : exceeds_limit (length ds) = false).
  { unfold exceeds_limit.
    destruct (Nat.ltb_spec MAX_STR_DIGITS_THRESHOLD (length ds)); [lia|].
    reflexivity. }
  assert (Hz : (length ds =? 0)%nat = false).
  { destruct ds; [contradiction | reflexivity]. }
  destruct ds as [|c ds']; [contradiction|].
  assert (Hc : is_ascii_digit c = true)
    by (simpl in Hd; apply andb_true_iff in Hd; apply Hd).
  destruct (digit_facts c Hc) as (_ & Hsp & Hplus & Hminus & Hu & _ & _).
  split; unfold int.
  - rewrite (transform_ascii _ Hascii). simpl skip_spaces. rewrite Hsp.
    rewrite Hplus, Hminus. simpl startswith. rewrite Hu. simpl andb.
    rewrite Hscan, Hlim, Hz. cbn [skip_spaces].
    unfold decimal_value. f_equal; lia.
  - rewrite (transform_ascii (MINUS :: c :: ds'))
      by (simpl; simpl in Hascii; exact Hascii).
    simpl skip_spaces. cbv beta iota.
    change (MINUS =? PLUS)%N with false. change (MINUS =? MINUS)%N with true.
    cbv beta iota zeta. simpl startswith. rewrite Hu. simpl andb.
    rewrite Hscan, Hlim, Hz. cbn [skip_spaces].
    unfold decimal_value. f_equal; lia.
Qed.

(** [int(str(z)) = z] for every integer of at most 640 characters. *)
Lemma int_str_of_int z :
  (length (str_of_int z) <= MAX_STR_DIGITS_THRESHOLD)%nat ->
  int (str_of_int z) = Ok z.
Proof.
  intros Hlen. destruct (Z.ltb_spec z 0) as [Hz|Hz].
  - destruct (str_of_int_neg z Hz) as (ds & E & Hne & Hd & Hv).
    rewrite E in *. simpl in Hlen.
    destruct (int_digits ds Hne Hd ltac:(lia)) as [_ H].
    rewrite H, Hv. f_equal. lia.
  - destruct (str_of_int_nonneg z Hz) as (Hne & Hd & Hv).
    destruct (int_digits _ Hne Hd Hlen) as [H _].
    rewrite H, Hv. reflexivity.
Qed.

Lemma str_of_int_no_slash z : ~ In SLASH (str_of_int z).
Proof.
  intros Hin. destruct (Z.ltb_spec z 0) as [Hz|Hz].
  - destruct (str_of_int_neg z Hz) as (ds & E & _ & Hd & _).
    rewrite E in Hin. destruct Hin as [Hin|Hin]; [discriminate Hin|].
    rewrite forallb_forall in Hd. apply (digit_facts _ (Hd _ Hin)). reflexivity.
  - destruct (str_of_int_nonneg z Hz) as (_ & Hd & _).
    rewrite forallb_forall in Hd. apply (digit_facts _ (Hd _ Hin)). reflexivity.
Qed.

Lemma parse_gt_join_str_of_int zs :
  zs <> [] ->
  Forall (fun z => (length (str_of_int z) <= MAX_STR_DIGITS_THRESHOLD)%nat) zs ->
  parse_gt (join SLASH (map str_of_int zs)) = Ok zs.
Proof.
  intros Hne Hshort. unfold parse_gt. rewrite split_join.
  - apply list_map_Ok_iff. clear Hne.
    induction Hshort as [|z zs Hz _ IH]; simpl; constructor.
    + apply int_str_of_int. exact Hz.
    + exact IH.
  - destruct zs; [contradiction | discriminate].
  - apply Forall_forall. intros p Hin. apply in_map_iff in Hin.
    destruct Hin as (z & <- & _). apply str_of_int_no_slash.
Qed.

Lemma digits_no_newline ds :
  forallb is_ascii_digit ds = true -> count_occ N.eq_dec ds LF = 0%nat.
Proof.
  intros Hd. apply count_occ_not_In. intros Hin.
  rewrite forallb_forall in Hd. specialize (Hd _ Hin). discriminate Hd.
Qed.

(** C6: when the script ends normally, what it has added to standard
    output is [SNPs read ], the counter in decimal digits, and a newline:
    one line and nothing else. For a file of no lines this is
    [SNPs read 0]. *)
Theorem output_is_one_line fhand out :
  (status (main fhand out) = Ok tt ->
   exists snps_read,
     for_loop fhand 0 = Ok snps_read
     /\ stdout (main fhand out)
        = out ++ lit "SNPs read " ++ str_of_int snps_read ++ [LF]
     /\ forallb is_ascii_digit (str_of_int snps_read) = true
     /\ decimal_value (str_of_int snps_read) = snps_read
     /\ count_occ N.eq_dec
          (lit "SNPs read " ++ str_of_int snps_read ++ [LF]) LF = 1%nat)
  /\ main [] [] = Outcome (lit "SNPs read 0" ++ [LF]) (Ok tt).
Proof.
  split; [|reflexivity].
  unfold main. destruct (for_loop fhand 0) as [n|e] eqn:Hrun; [|discriminate].
  intros _. exists n.
  assert (Hn : 0 <= n).
  { rewrite for_loop_pieces in Hrun.
    destruct (list_map int (pieces_read fhand)); [|discriminate].
    simpl in Hrun. injection Hrun as <-. lia. }
  destruct (str_of_int_nonneg n Hn) as (_ & Hd & Hv).
  split; [reflexivity|]. split; [reflexivity|].
  split; [exact Hd|]. split; [exact Hv|].
  pose proof (digits_no_newline _ Hd) as Hnl.
  apply (f_equal (fun k => (0 + (k + 1))%nat)) in Hnl.
  rewrite !count_occ_app. exact Hnl.
Qed.

(** C10: [parse_gt] does not check the sign of the alleles. The token
    [-1/2] decodes to [-1; 2] and a file with this genotype is read to the
    end and counted; in general a token made of the decimal notations of
    any integers, negative ones included, decodes to these integers. *)
Theorem negative_alleles_are_accepted :
  parse_gt (lit "-1/2") = Ok [-1; 2]
  /\ (forall out,
        main [tsv ["c1"; "."; "."; "."; "."; "."; "."; "."; "."; "-1/2"]%string]
             out
        = Outcome (out ++ lit "SNPs read 1" ++ [LF]) (Ok tt))
  /\ (forall alleles,
        alleles <> [] ->
        Forall (fun z => (length (str_of_int z) <= 640)%nat) alleles ->
        parse_gt (join SLASH (map str_of_int alleles)) = Ok alleles).
Proof.
  split; [reflexivity|]. split.
  - intros out. rewrite (main_Ok _ _ 1) by reflexivity.
    unfold print. rewrite <- app_assoc. reflexivity.
  - exact parse_gt_join_str_of_int.
Qed.

(** ** Further properties of the loop *)

Lemma for_loop_app fhand1 fhand2 : forall snps_read,
  for_loop (fhand1 ++ fhand2) snps_read
  = (n <- for_loop fhand1 snps_read ;; for_loop fhand2 n).
Proof.
  induction fhand1 as [|line fhand1 IH]; intros n; simpl; [reflexivity|].
  destruct (loop_body line n); simpl; [apply IH | reflexivity].
Qed.

Lemma for_loop_shift fhand snps_read :
  for_loop fhand snps_read = (n <- for_loop fhand 0 ;; Ok (snps_read + n)).
Proof.
  rewrite !for_loop_pieces.
  destruct (list_map int (pieces_read fhand)); reflexivity.
Qed.

Lemma loop_body_header line snps_read :
  is_header line = true -> loop_body line snps_read = Ok snps_read.
Proof. intros H. unfold loop_body. rewrite H. reflexivity. Qed.

Lemma loop_body_data line snps_read :
  is_header line = false ->
  loop_body line snps_read = (_ <- gts line ;; Ok (snps_read + 1)).
Proof. intros H. unfold loop_body. rewrite H. reflexivity. Qed.

(** X2: the first data line that fails ends the run with its own
    exception; the lines after it are never read, so they can be anything,
    and nothing is printed. *)
Theorem failure_ends_the_run before line after n e out :
  for_loop before 0 = Ok n ->
  startswith line (lit "#") = false ->
  gts line = Err e ->
  for_loop (before ++ line :: after) 0 = Err e
  /\ main (before ++ line :: after) out = Outcome out (Err e).
Proof.
  intros Hb Hh Hg.
  assert (H : for_loop (before ++ line :: after) 0 = Err e).
  { rewrite for_loop_app, Hb. simpl.
    rewrite (loop_body_data line n Hh), Hg. reflexivity. }
  split; [exact H | apply main_Err; exact H].
Qed.

(** X3: a header line is transparent. Putting a line that starts with [#]
    anywhere into a file, whatever the line contains, changes neither the
    count nor the exception of the run nor what is printed. *)
Theorem header_line_is_transparent before header after snps_read out :
  startswith header (lit "#") = true ->
  for_loop (before ++ header :: after) snps_read
  = for_loop (before ++ after) snps_read
  /\ main (before ++ header :: after) out = main (before ++ after) out.
Proof.
  intros Hh.
  assert (H : forall n, for_loop (before ++ header :: after) n
                        = for_loop (before ++ after) n).
  { intros n. rewrite !for_loop_app.
    destruct (for_loop before n); simpl; [|reflexivity].
    rewrite (loop_body_header header _ Hh). reflexivity. }
  split; [apply H|]. unfold main. rewrite H. reflexivity.
Qed.

(** X4: the counter only grows, by at most one per line. A run that
    starts at [snps_read] and reads the file to the end stops between
    [snps_read] and [snps_read] plus the number of lines; it reaches the
    upper bound exactly when no line is a header and stays where it
    started exactly when every line is one. *)
Theorem counter_bounds fhand snps_read final :
  for_loop fhand snps_read = Ok final ->
  snps_read <= final <= snps_read + Z.of_nat (length fhand)
  /\ (final = snps_read + Z.of_nat (length fhand)
      <-> Forall (fun line => startswith line (lit "#") = false) fhand)
  /\ (final = snps_read
      <-> Forall (fun line => startswith line (lit "#") = true) fhand).
Proof.
  intros Hrun. rewrite for_loop_pieces in Hrun.
  destruct (list_map int (pieces_read fhand)); [|discriminate].
  simpl in Hrun. injection Hrun as <-.
  pose proof (headers_and_data fhand) as Hsum.
  split; [lia|]. split.
  - split.
    + intros H.
      assert (Hz : length (filter is_header fhand) = 0%nat) by lia.
      apply length_zero_iff_nil in Hz.
      apply Forall_forall. intros line Hin.
      destruct (startswith line (lit "#")) eqn:Hl; [|reflexivity].
      assert (Hf : In line (filter is_header fhand))
        by (apply filter_In; split; assumption).
      rewrite Hz in Hf. contradiction.
    + intros H. f_equal. f_equal. unfold data_lines.
      clear Hsum. induction H as [|line fhand' Hl _ IH]; simpl; [reflexivity|].
      unfold is_header at 1. rewrite Hl. simpl. rewrite IH. reflexivity.
  - rewrite <- (data_lines_nil_iff fhand). split.
    + intros H. apply length_zero_iff_nil. lia.
    + intros ->. simpl. lia.
Qed.

(** ** Further properties of stripping and splitting *)

Lemma lstrip_spaces ws s :
  forallb isspace ws = true -> lstrip (ws ++ s) = lstrip s.
Proof.
  induction ws as [|c ws IH]; simpl; [reflexivity|].
  intros H. apply andb_true_iff in H. destruct H as [Hc Hws].
  rewrite Hc. apply IH. exact Hws.
Qed.

Lemma rstrip_app_spaces s ws :
  forallb isspace ws = true -> rstrip (s ++ ws) = rstrip s.
Proof.
  intros H. unfold rstrip. rewrite rev_app_distr, lstrip_spaces; [reflexivity|].
  rewrite forallb_rev. exact H.
Qed.

Lemma strip_app_spaces s ws :
  forallb isspace ws = true -> strip (s ++ ws) = strip s.
Proof.
  intros H. unfold strip. induction s as [|c s IH]; simpl.
  - rewrite <- (app_nil_r ws), (lstrip_spaces ws [] H). reflexivity.
  - destruct (isspace c); [exact IH|].
    apply (rstrip_app_spaces (c :: s) ws H).
Qed.

Lemma is_header_app_spaces line ws :
  forallb isspace ws = true -> is_header (line ++ ws) = is_header line.
Proof.
  intros H. destruct line as [|c line]; [|reflexivity].
  destruct ws as [|c ws]; [reflexivity|]. simpl in H.
  apply andb_true_iff in H. destruct H as [Hc _].
  unfold is_header. simpl.
  destruct (N.eqb_spec c 35) as [->|_]; [discriminate Hc | reflexivity].
Qed.

Lemma rstrip_nonspace_last s c :
  isspace c = false -> rstrip (s ++ [c]) = s ++ [c].
Proof.
  intros H. unfold rstrip. rewrite rev_unit, (lstrip_nonspace c _ H).
  rewrite <- rev_unit. apply rev_involutive.
Qed.

Lemma split_not_nil sep s : split sep s <> [].
Proof.
  destruct s as [|c s]; simpl; [discriminate|].
  destruct (c =? sep)%N; [discriminate|].
  destruct (split sep s); discriminate.
Qed.

Lemma split_app sep a b :
  split sep (a ++ sep :: b) = split sep a ++ split sep b.
Proof.
  induction a as [|c a IH]; simpl.
  - rewrite N.eqb_refl. reflexivity.
  - destruct (c =? sep)%N; rewrite IH; [reflexivity|].
    pose proof (split_not_nil sep a) as Hne.
    destruct (split sep a); [contradiction | reflexivity].
Qed.


Lemma list_map_app {A B : Type} (f : A -> res B) xs ys :
  list_map f (xs ++ ys)
  = (a <- list_map f xs ;; b <- list_map f ys ;; Ok (a ++ b)).
Proof.
  induction xs as [|x xs IH]; simpl.
  - destruct (list_map f ys); reflexivity.
  - destruct (f x); simpl; [|reflexivity]. rewrite IH.
    destruct (list_map f xs); simpl; [|reflexivity].
    destruct (list_map f ys); reflexivity.
Qed.

(** X5: white space at the end of a line is never seen. Appending
    blanks, tabs, a carriage return or a newline to a line, or leaving
    out its final newline, changes neither its fields nor what the loop
    does with it; empty columns at the end of a line are dropped in this
    way. *)
Theorem trailing_space_is_ignored line ws snps_read :
  forallb isspace ws = true ->
  fields (line ++ ws) = fields line
  /\ loop_body (line ++ ws) snps_read = loop_body line snps_read.
Proof.
  intros H.
  assert (Hf : fields (line ++ ws) = fields line)
    by (unfold fields; rewrite (strip_app_spaces line ws H); reflexivity).
  split; [exact Hf|].
  unfold loop_body, gts, sample_fields.
  rewrite (is_header_app_spaces line ws H), Hf. reflexivity.
Qed.

(** X6: the script sees the columns of a well-formed record as they were
    written. If no column contains a tab and the record begins and ends
    with a character that is not white space, then the fields of the
    record followed by its line end are its columns, and the sample fields
    are the columns after the ninth. *)
Theorem record_fields cols first row_tail row_init last ws :
  Forall (fun col => ~ In TAB col) cols ->
  cols <> [] ->
  join TAB cols = first :: row_tail -> isspace first = false ->
  join TAB cols = row_init ++ [last] -> isspace last = false ->
  forallb isspace ws = true ->
  fields (join TAB cols ++ ws) = cols
  /\ sample_fields (join TAB cols ++ ws) = skipn 9 cols.
Proof.
  intros Hcols Hne Hfirst Hf Hlast Hl Hws.
  assert (H : fields (join TAB cols ++ ws) = cols).
  { unfold fields. rewrite (strip_app_spaces _ ws Hws). unfold strip.
    rewrite Hfirst, (lstrip_nonspace first row_tail Hf), <- Hfirst.
    rewrite Hlast, (rstrip_nonspace_last row_init last Hl), <- Hlast.
    apply split_join; assumption. }
  split; [exact H|]. unfold sample_fields. rewrite H. reflexivity.
Qed.

Lemma parse_gt_length gt alleles :
  parse_gt gt = Ok alleles ->
  length alleles = S (count_occ N.eq_dec gt SLASH).
Proof.
  unfold parse_gt. intros H. apply list_map_Ok_iff in H.
  rewrite <- length_split. symmetry. exact (Forall2_length H).
Qed.

(** X7: the shape of what is decoded. When a line parses there is one
    genotype for each field after the ninth, in the same order, and the
    genotype of a field has one allele more than the field has slashes; no
    genotype is empty. *)
Theorem gts_shape line decoded :
  gts line = Ok decoded ->
  length decoded = (length (fields line) - 9)%nat
  /\ Forall2 (fun token alleles =>
                parse_gt token = Ok alleles
                /\ length alleles = S (count_occ N.eq_dec token SLASH))
             (sample_fields line) decoded
  /\ Forall (fun alleles => alleles <> []) decoded.
Proof.
  unfold gts. intros H. apply list_map_Ok_iff in H.
  assert (H2 : Forall2 (fun token alleles =>
                          parse_gt token = Ok alleles
                          /\ length alleles = S (count_occ N.eq_dec token SLASH))
                       (sample_fields line) decoded).
  { induction H as [|tok al toks als Hp _ IH]; constructor; [|exact IH].
    split; [exact Hp | exact (parse_gt_length _ _ Hp)]. }
  split; [|split; [exact H2|]].
  - rewrite <- (Forall2_length H). unfold sample_fields. apply length_skipn.
  - clear H. induction H2 as [|tok al toks als [_ Hlen] _ IH]; constructor;
      [|exact IH].
    intros ->. discriminate Hlen.
Qed.

(** X8: decoding goes piece by piece. The genotype of two tokens joined
    by a slash is the genotype of the first followed by that of the
    second, and it fails with the exception of the first when the first
    fails, else with that of the second. *)
Theorem parse_gt_app gt1 gt2 :
  parse_gt (gt1 ++ SLASH :: gt2)
  = (alleles1 <- parse_gt gt1 ;; alleles2 <- parse_gt gt2 ;;
     Ok (alleles1 ++ alleles2)).
Proof. unfold parse_gt. rewrite split_app. apply list_map_app. Qed.

(** X9: an empty piece is never taken for an allele. The empty token, a
    token that begins or ends with a slash and a token with two slashes in
    a row are all rejected. *)
Theorem empty_piece_is_rejected gt1 gt2 :
  parse_gt [] = Err (ValueError_invalid_literal [])
  /\ parse_gt (SLASH :: gt1) = Err (ValueError_invalid_literal [])
  /\ is_ok (parse_gt (gt1 ++ [SLASH])) = false
  /\ is_ok (parse_gt (gt1 ++ SLASH :: SLASH :: gt2)) = false.
Proof.
  assert (H0 : parse_gt [] = Err (ValueError_invalid_literal []))
    by reflexivity.
  assert (H1 : forall gt, parse_gt (SLASH :: gt)
                          = Err (ValueError_invalid_literal [])).
  { intros gt. reflexivity. }
  split; [exact H0|]. split; [apply H1|]. split.
  - unfold parse_gt. rewrite split_app, list_map_app.
    destruct (list_map int (split SLASH gt1)); reflexivity.
  - unfold parse_gt. rewrite split_app, list_map_app.
    fold (parse_gt (SLASH :: gt2)). rewrite H1.
    destruct (list_map int (split SLASH gt1)); reflexivity.
Qed.




(** ** Further properties of [int] *)

Lemma c_isspace_facts c :
  c_isspace c = true ->
  (c <? 128)%N = true /\ (c =? UNDERSCORE)%N = false
  /\ digit_value c = None.
Proof.
  unfold c_isspace, digit_value, in_range, SPACE, UNDERSCORE. intros H.
  repeat split;
    repeat match goal with
           | H : context [(?a <=? ?b)%N] |- _ => destruct (N.leb_spec a b)
           | H : context [(?a =? ?b)%N] |- _ => destruct (N.eqb_spec a b)
           | |- context [(?a <=? ?b)%N] => destruct (N.leb_spec a b)
           | |- context [(?a <? ?b)%N] => destruct (N.ltb_spec a b)
           | |- context [(?a =? ?b)%N] => destruct (N.eqb_spec a b)
           end; simpl in *; try reflexivity; try discriminate; lia.
Qed.

Lemma spaces_ascii sp :
  forallb c_isspace sp = true -> forallb (fun ch => (ch <? 128)%N) sp = true.
Proof.
  intros H. apply forallb_forall. intros c Hin.
  rewrite forallb_forall in H. apply (c_isspace_facts c (H c Hin)).
Qed.

Lemma all_ascii_app (a b : str) :
  forallb (fun ch => (ch <? 128)%N) a = true ->
  forallb (fun ch => (ch <? 128)%N) b = true ->
  forallb (fun ch => (ch <? 128)%N) (a ++ b) = true.
Proof.
  intros Ha Hb. rewrite forallb_app. apply andb_true_iff. split; assumption.
Qed.

Lemma skip_spaces_app sp s :
  forallb c_isspace sp = true -> skip_spaces (sp ++ s) = skip_spaces s.
Proof.
  induction sp as [|c sp IH]; simpl; [reflexivity|].
  intros H. apply andb_true_iff in H. destruct H as [Hc Hsp].
  rewrite Hc. apply IH. exact Hsp.
Qed.

Lemma skip_spaces_all sp : forallb c_isspace sp = true -> skip_spaces sp = [].
Proof.
  intros H. rewrite <- (app_nil_r sp). apply (skip_spaces_app sp [] H).
Qed.

Lemma scan_digits_then_spaces ds sp :
  forallb is_ascii_digit ds = true -> forallb c_isspace sp = true ->
  forall acc digits,
    scan (ds ++ sp) false acc digits
    = Some (horner acc ds, (digits + length ds)%nat, sp).
Proof.
  intros Hd Hsp. induction ds as [|c ds IH]; intros acc digits.
  - simpl app. rewrite Nat.add_0_r. destruct sp as [|c sp]; [reflexivity|].
    simpl in Hsp. apply andb_true_iff in Hsp. destruct Hsp as [Hc _].
    destruct (c_isspace_facts c Hc) as (_ & Hu & Hv).
    simpl. rewrite Hu, Hv. reflexivity.
  - simpl in Hd. apply andb_true_iff in Hd. destruct Hd as [Hc Hd].
    destruct (digit_facts c Hc) as (_ & _ & _ & _ & Hu & Hv & _).
    simpl. rewrite Hu, Hv, (IH Hd). unfold horner. simpl fold_left.
    do 3 f_equal. lia.
Qed.

Lemma int_after_sign_digits u sign ds sp :
  ds <> [] -> forallb is_ascii_digit ds = true ->
  forallb c_isspace sp = true ->
  int_after_sign u sign (ds ++ sp)
  = if exceeds_limit (length ds) then Err (ValueError_exceeds_limit (length ds))
    else Ok (sign * decimal_value ds).
Proof.
  intros Hne Hd Hsp. unfold int_after_sign.
  rewrite (scan_digits_then_spaces ds sp Hd Hsp). simpl Nat.add.
  destruct ds as [|c ds]; [contradiction|].
  assert (Hc : is_ascii_digit c = true)
    by (simpl in Hd; apply andb_true_iff in Hd; apply Hd).
  destruct (digit_facts c Hc) as (_ & _ & _ & _ & Hu & _ & _).
  simpl startswith. rewrite Hu. simpl andb. cbv iota.
  destruct (exceeds_limit (length (c :: ds))); [reflexivity|].
  simpl Nat.eqb. cbv iota. rewrite (skip_spaces_all sp Hsp). reflexivity.
Qed.

Lemma int_spaced sp1 ds sp2 :
  ds <> [] -> forallb is_ascii_digit ds = true ->
  forallb c_isspace sp1 = true -> forallb c_isspace sp2 = true ->
  int (sp1 ++ ds ++ sp2) = int_after_sign (sp1 ++ ds ++ sp2) 1 (ds ++ sp2)
  /\ int (sp1 ++ PLUS :: ds ++ sp2)
     = int_after_sign (sp1 ++ PLUS :: ds ++ sp2) 1 (ds ++ sp2)
  /\ int (sp1 ++ MINUS :: ds ++ sp2)
     = int_after_sign (sp1 ++ MINUS :: ds ++ sp2) (-1) (ds ++ sp2).
Proof.
  intros Hne Hd H1 H2.
  pose proof (spaces_ascii _ H1) as A1. pose proof (spaces_ascii _ H2) as A2.
  pose proof (digits_ascii _ Hd) as Ad.
  destruct ds as [|c ds]; [contradiction|].
  assert (Hc : is_ascii_digit c = true)
    by (simpl in Hd; apply andb_true_iff in Hd; apply Hd).
  destruct (digit_facts c Hc) as (_ & Hsp & Hplus & Hminus & _).
  assert (Atail : forallb (fun ch => (ch <? 128)%N) ((c :: ds) ++ sp2) = true)
    by (apply all_ascii_app; assumption).
  split; [|split]; unfold int, int_after_sign.
  - rewrite transform_ascii by (apply all_ascii_app; assumption).
    rewrite (skip_spaces_app sp1 _ H1). simpl app. simpl skip_spaces.
    rewrite Hsp, Hplus, Hminus. reflexivity.
  - rewrite transform_ascii
      by (apply all_ascii_app; [assumption|];
          apply (all_ascii_app [PLUS]); [reflexivity | assumption]).
    rewrite (skip_spaces_app sp1 _ H1). reflexivity.
  - rewrite transform_ascii
      by (apply all_ascii_app; [assumption|];
          apply (all_ascii_app [MINUS]); [reflexivity | assumption]).
    rewrite (skip_spaces_app sp1 _ H1). reflexivity.
Qed.

(** X11: [int] is lenient about what surrounds the digits. A piece made
    of ASCII digits, with C white space before and after them and with or
    without a sign, is read as the number the digits denote (leading
    zeros included), as long as the digits do not exceed the limit of the
    interpreter. *)
Theorem int_tolerates_space_and_sign sp1 ds sp2 :
  ds <> [] -> forallb is_ascii_digit ds = true ->
  forallb c_isspace sp1 = true -> forallb c_isspace sp2 = true ->
  exceeds_limit (length ds) = false ->
  int (sp1 ++ ds ++ sp2) = Ok (decimal_value ds)
  /\ int (sp1 ++ PLUS :: ds ++ sp2) = Ok (decimal_value ds)
  /\ int (sp1 ++ MINUS :: ds ++ sp2) = Ok (- decimal_value ds).
Proof.
  intros Hne Hd H1 H2 Hlim.
  destruct (int_spaced sp1 ds sp2 Hne Hd H1 H2) as (E1 & E2 & E3).
  rewrite E1, E2, E3, !int_after_sign_digits, Hlim by assumption.
  repeat split; f_equal; lia.
Qed.

(** X12: the digit limit of the interpreter. When the limit is set, a
    piece with more than 640 digits and more digits than the limit is
    rejected with the second [ValueError], and so is the token it is part
    of; when the limit is disabled (or the interpreter has none), digits
    in any number are accepted. *)
Theorem digit_limit ds :
  ds <> [] -> forallb is_ascii_digit ds = true ->
  ((640 < length ds)%nat -> (0 < int_max_str_digits)%nat ->
   (int_max_str_digits < length ds)%nat ->
   int ds = Err (ValueError_exceeds_limit (length ds))
   /\ parse_gt ds = Err (ValueError_exceeds_limit (length ds)))
  /\ (int_max_str_digits = 0%nat ->
      int ds = Ok (decimal_value ds) /\ parse_gt ds = Ok [decimal_value ds]).
Proof.
  intros Hne Hd.
  destruct (int_spaced [] ds [] Hne Hd eq_refl eq_refl) as (E & _).
  simpl app in E. rewrite app_nil_r in E.
  pose proof (int_after_sign_digits ds 1 ds [] Hne Hd eq_refl) as Ea.
  rewrite app_nil_r in Ea. rewrite Ea in E. clear Ea.
  assert (Hsplit : split SLASH ds = [ds]).
  { apply split_no_sep. intros Hin. rewrite forallb_forall in Hd.
    apply (digit_facts _ (Hd _ Hin)). reflexivity. }
  split.
  - intros H640 H0 Hmax.
    assert (Hlim : exceeds_limit (length ds) = true).
    { unfold exceeds_limit, MAX_STR_DIGITS_THRESHOLD.
      apply Nat.ltb_lt in H640, H0, Hmax. rewrite H640, H0, Hmax. reflexivity. }
    rewrite Hlim in E. split; [exact E|].
    unfold parse_gt. rewrite Hsplit. simpl. rewrite E. reflexivity.
  - intros Hoff.
    assert (Hlim : exceeds_limit (length ds) = false).
    { unfold exceeds_limit. rewrite Hoff. change (0 <? 0)%nat with false.
      rewrite andb_false_r. reflexivity. }
    rewrite Hlim in E.
    replace (1 * decimal_value ds) with (decimal_value ds) in E by lia.
    split; [exact E|].
    unfold parse_gt. rewrite Hsplit. simpl. rewrite E. reflexivity.
Qed.

(** X13: writing an integer and reading it back. [int(str(z))] is [z] for
    every integer whose decimal notation has at most 640 characters, and
    for every integer when the digit limit is disabled. *)
Theorem int_of_str_of_int z :
  (length (str_of_int z) <= 640)%nat \/ int_max_str_digits = 0%nat ->
  int (str_of_int z) = Ok z.
Proof.
  intros Hlen.
  assert (Hlim : forall ds : str, (length ds <= length (str_of_int z))%nat ->
                            exceeds_limit (length ds) = false).
  { intros ds Hds. unfold exceeds_limit, MAX_STR_DIGITS_THRESHOLD.
    destruct Hlen as [Hlen| ->].
    - destruct (Nat.ltb_spec 640 (length ds)); [lia | reflexivity].
    - change (0 <? 0)%nat with false. rewrite andb_false_r. reflexivity. }
  destruct (Z.ltb_spec z 0) as [Hz|Hz].
  - destruct (str_of_int_neg z Hz) as (ds & E & Hne & Hd & Hv).
    destruct (int_spaced [] ds [] Hne Hd eq_refl eq_refl) as (_ & _ & E3).
    simpl app in E3. rewrite app_nil_r in E3.
    rewrite E, E3.
    pose proof (int_after_sign_digits (MINUS :: ds) (-1) ds [] Hne Hd eq_refl)
      as Ea.
    rewrite app_nil_r in Ea. rewrite Ea, Hlim, Hv.
    + f_equal. lia.
    + rewrite E. simpl. lia.
  - destruct (str_of_int_nonneg z Hz) as (Hne & Hd & Hv).
    destruct (int_spaced [] _ [] Hne Hd eq_refl eq_refl) as (E1 & _).
    simpl app in E1. rewrite app_nil_r in E1. rewrite E1.
    pose proof (int_after_sign_digits (str_of_int z) 1 _ [] Hne Hd eq_refl)
      as Ea.
    rewrite app_nil_r in Ea. rewrite Ea, Hlim, Hv by lia.
    f_equal. lia.
Qed.

(** ** The text stream *)

Lemma universal_newlines_no_cr text : forall pending_cr,
  ~ In CR (universal_newlines pending_cr text).
Proof.
  induction text as [|c text IH]; intros pending_cr; simpl; [tauto|].
  destruct (N.eqb_spec c CR) as [->|Hc].
  - intros [H|H]; [discriminate H | exact (IH _ H)].
  - destruct ((c =? LF)%N && pending_cr); [apply IH|].
    intros [H|H]; [exact (Hc H) | exact (IH _ H)].
Qed.

Lemma universal_newlines_id text : forall pending_cr,
  ~ In CR text ->
  universal_newlines pending_cr
    (map (fun c => if (c =? LF)%N then CR else c) text) = text
  /\ universal_newlines pending_cr
       (flat_map (fun c => if (c =? LF)%N then [CR; LF] else [c]) text) = text
  /\ universal_newlines false text = text.
Proof.
  induction text as [|c text IH]; intros pending_cr Hcr; [auto|].
  assert (Hc : c <> CR) by (intros ->; apply Hcr; left; reflexivity).
  assert (Ht : ~ In CR text) by (intros H; apply Hcr; right; exact H).
  destruct (IH true Ht) as (M1 & _ & _).
  destruct (IH false Ht) as (M2 & F2 & I2).
  simpl. destruct (N.eqb_spec c LF) as [->|Hlf].
  - simpl. rewrite M1, F2, I2. auto.
  - simpl. destruct (N.eqb_spec c CR) as [|_]; [contradiction|].
    destruct (N.eqb_spec c LF) as [|_]; [contradiction|].
    simpl. rewrite M2, F2, I2. auto.
Qed.

Lemma readlines_concat text : concat (readlines text) = text.
Proof.
  induction text as [|c text IH]; simpl; [reflexivity|].
  destruct (N.eqb_spec c LF) as [->|_]; simpl; [rewrite IH; reflexivity|].
  destruct (readlines text) as [|line lines]; simpl in *; rewrite <- IH;
    reflexivity.
Qed.

Lemma wf_line_cons c line :
  wf_line line = true -> c <> LF -> c <> CR -> wf_line (c :: line) = true.
Proof.
  unfold wf_line. intros H Hlf Hcr. apply andb_true_iff in H.
  destruct H as [Hbody Hall]. simpl rev.
  destruct (rev line) as [|x body]; [discriminate Hbody|].
  apply N.eqb_neq in Hlf, Hcr.
  simpl. apply andb_true_iff. split.
  - rewrite forallb_app. apply andb_true_iff. split; [exact Hbody|].
    simpl. rewrite Hlf, Hcr. reflexivity.
  - apply andb_true_iff. split; [rewrite Hcr; reflexivity | exact Hall].
Qed.

Lemma readlines_wf text :
  ~ In CR text -> Forall (fun line => wf_line line = true) (readlines text).
Proof.
  induction text as [|c text IH]; intros Hcr; simpl; [constructor|].
  assert (Hc : c <> CR) by (intros ->; apply Hcr; left; reflexivity).
  assert (Ht : ~ In CR text) by (intros H; apply Hcr; right; exact H).
  specialize (IH Ht).
  destruct (N.eqb_spec c LF) as [->|Hlf]; [constructor; [reflexivity | exact IH]|].
  destruct (readlines text) as [|line lines].
  - constructor; [|constructor]. unfold wf_line. simpl.
    apply N.eqb_neq in Hc. rewrite Hc. reflexivity.
  - inversion IH; subst. constructor; [|assumption].
    apply wf_line_cons; assumption.
Qed.

Lemma readlines_newlines text :
  Forall (fun line => exists body, line = body ++ [LF])
         (removelast (readlines text)).
Proof.
  induction text as [|c text IH]; simpl; [constructor|].
  destruct (c =? LF)%N.
  - destruct (readlines text) as [|line lines] eqn:E; [constructor|].
    constructor; [exists []; reflexivity | exact IH].
  - destruct (readlines text) as [|line lines]; [constructor|].
    destruct lines as [|line' lines]; [constructor|].
    simpl in IH. inversion IH as [|? ? [body ->] Hrest]; subst.
    constructor; [exists (c :: body); reflexivity | exact Hrest].
Qed.

(** X14: the lines the loop receives. For every decoded text, the lines
    put end to end give back the text with its newlines translated;
    every line is well formed (not empty, no carriage return, no newline
    except as its last character); and every line but the last ends with
    a newline. *)
Theorem lines_of_text_spec text :
  concat (lines_of_text text) = universal_newlines false text
  /\ Forall (fun line => wf_line line = true) (lines_of_text text)
  /\ Forall (fun line => exists body, line = body ++ [LF])
            (removelast (lines_of_text text)).
Proof.
  unfold lines_of_text. split; [apply readlines_concat|]. split.
  - apply readlines_wf. apply universal_newlines_no_cr.
  - apply readlines_newlines.
Qed.

(** X15: the newline convention of the file makes no difference. A text
    without carriage returns, the same text with every newline written as
    carriage return and newline, and the same text with every newline
    written as a carriage return give the loop the same lines, and so the
    same run. *)
Theorem newline_convention_is_irrelevant text out :
  ~ In CR text ->
  lines_of_text text = readlines text
  /\ lines_of_text
       (flat_map (fun c => if (c =? LF)%N then [CR; LF] else [c]) text)
     = readlines text
  /\ lines_of_text (map (fun c => if (c =? LF)%N then CR else c) text)
     = readlines text
  /\ main (lines_of_text
             (flat_map (fun c => if (c =? LF)%N then [CR; LF] else [c]) text))
          out
     = main (lines_of_text text) out.
Proof.
  intros Hcr. unfold lines_of_text.
  destruct (universal_newlines_id text false Hcr) as (M & F & I).
  rewrite M, F, I. auto.
Qed.

(** ** Records and their columns *)







(** ** Concatenation of texts *)

Lemma universal_newlines_app body text2 : forall pending_cr,
  universal_newlines pending_cr ((body ++ [LF]) ++ text2)
  = universal_newlines pending_cr (body ++ [LF])
      ++ universal_newlines false text2.
Proof.
  induction body as [|c body IH]; intros pending_cr.
  - simpl. destruct pending_cr; reflexivity.
  - change (((c :: body) ++ [LF]) ++ text2)
      with (c :: ((body ++ [LF]) ++ text2)).
    change ((c :: body) ++ [LF]) with (c :: (body ++ [LF])).
    cbn [universal_newlines].
    destruct (c =? CR)%N; [rewrite IH; reflexivity|].
    destruct ((c =? LF)%N && pending_cr); rewrite IH; reflexivity.
Qed.

Lemma universal_newlines_ends body : forall pending_cr,
  (universal_newlines pending_cr (body ++ [LF]) = [] /\ pending_cr = true)
  \/ exists init, universal_newlines pending_cr (body ++ [LF]) = init ++ [LF].
Proof.
  induction body as [|c body IH]; intros pending_cr.
  - simpl. destruct pending_cr; [left; auto | right; exists []; reflexivity].
  - simpl. destruct (c =? CR)%N.
    + right. destruct (IH true) as [[E _]|(init & E)]; rewrite E.
      * exists []. reflexivity.
      * exists (LF :: init). reflexivity.
    + destruct ((c =? LF)%N && pending_cr).
      * right. destruct (IH false) as [[_ E]|H]; [discriminate E | exact H].
      * right. destruct (IH false) as [[_ E]|(init & E)]; [discriminate E|].
        rewrite E. exists (c :: init). reflexivity.
Qed.

Lemma readlines_app text1 text2 :
  text1 = [] \/ (exists body, text1 = body ++ [LF]) ->
  readlines (text1 ++ text2) = readlines text1 ++ readlines text2.
Proof.
  induction text1 as [|c text1 IH]; intros Hend; [reflexivity|].
  assert (Hend' : text1 = [] \/ exists body, text1 = body ++ [LF]).
  { destruct Hend as [H|(body & H)]; [discriminate H|].
    destruct body as [|b body]; simpl in H; injection H as _ H.
    - left. exact H.
    - right. exists body. exact H. }
  specialize (IH Hend'). simpl.
  destruct (N.eqb_spec c LF) as [->|Hc]; [rewrite IH; reflexivity|].
  rewrite IH. destruct Hend' as [->|(body & ->)].
  - exfalso. destruct Hend as [H|(body & H)]; [discriminate H|].
    destruct body as [|b body]; simpl in H.
    + injection H as H1. exact (Hc H1).
    + injection H as _ H2. destruct body; discriminate H2.
  - destruct (readlines (body ++ [LF])) as [|line lines] eqn:E; [|reflexivity].
    exfalso. pose proof (readlines_concat (body ++ [LF])) as Hc'.
    rewrite E in Hc'. simpl in Hc'. destruct body; discriminate Hc'.
Qed.

Lemma lines_of_text_app text1 text2 :
  text1 = [] \/ (exists body, text1 = body ++ [LF]) ->
  lines_of_text (text1 ++ text2) = lines_of_text text1 ++ lines_of_text text2.
Proof.
  intros [->|(body & ->)]; [reflexivity|]. unfold lines_of_text.
  rewrite universal_newlines_app. apply readlines_app.
  destruct (universal_newlines_ends body false) as [[_ E]|(init & E)];
    [discriminate E|].
  right. exists init. exact E.
Qed.

(** X1: counts add up. When the lines of two files are each read to the
    end, with counts [n1] and [n2], the lines of the first followed by the
    lines of the second are read to the end with count [n1 + n2], and this
    is the number printed. For decoded texts this is the case of the
    concatenated text whenever the first text is empty or ends with a
    newline character: its lines are then the lines of the first text
    followed by those of the second. *)
Theorem counts_add n1 n2 out :
  (forall fhand1 fhand2,
     for_loop fhand1 0 = Ok n1 ->
     for_loop fhand2 0 = Ok n2 ->
     for_loop (fhand1 ++ fhand2) 0 = Ok (n1 + n2)
     /\ main (fhand1 ++ fhand2) out
        = Outcome (out ++ lit "SNPs read " ++ str_of_int (n1 + n2) ++ [LF])
                  (Ok tt))
  /\ (forall text1 text2,
        text1 = [] \/ (exists body, text1 = body ++ [LF]) ->
        for_loop (lines_of_text text1) 0 = Ok n1 ->
        for_loop (lines_of_text text2) 0 = Ok n2 ->
        lines_of_text (text1 ++ text2)
        = lines_of_text text1 ++ lines_of_text text2
        /\ for_loop (lines_of_text (text1 ++ text2)) 0 = Ok (n1 + n2)
        /\ main (lines_of_text (text1 ++ text2)) out
           = Outcome (out ++ lit "SNPs read " ++ str_of_int (n1 + n2) ++ [LF])
                     (Ok tt)).
Proof.
  assert (Hlines : forall fhand1 fhand2,
    for_loop fhand1 0 = Ok n1 ->
    for_loop fhand2 0 = Ok n2 ->
    for_loop (fhand1 ++ fhand2) 0 = Ok (n1 + n2)
    /\ main (fhand1 ++ fhand2) out
       = Outcome (out ++ lit "SNPs read " ++ str_of_int (n1 + n2) ++ [LF])
                 (Ok tt)).
  { intros fhand1 fhand2 H1 H2.
    assert (H : for_loop (fhand1 ++ fhand2) 0 = Ok (n1 + n2)).
    { rewrite for_loop_app, H1. simpl. rewrite for_loop_shift, H2.
      reflexivity. }
    split; [exact H|]. rewrite (main_Ok _ _ _ H). unfold print.
    rewrite <- app_assoc. reflexivity. }
  split; [exact Hlines|].
  intros text1 text2 Hend H1 H2.
  pose proof (lines_of_text_app text1 text2 Hend) as E.
  split; [exact E|]. rewrite E. apply Hlines; assumption.
Qed.

End Interpreter.

(** ** The properties at sample inputs

    The interpreter is the default one of CPython 3.11, with a limit of
    4300 digits. *)

Lemma count_is_number_of_data_lines_witness :
  for_loop 4300 scenario 0 = Ok 2
  /\ (forall out,
        main 4300 scenario out
        = Outcome (out ++ lit "SNPs read " ++ str_of_int 2 ++ [LF]) (Ok tt))
  /\ (1 + 2 = length scenario)%nat
  /\ (Forall (fun line => startswith line (lit "#") = true) scenario -> 2%nat = 0%nat)
  /\ (forall fhand', Permutation scenario fhand' -> for_loop 4300 fhand' 0 = Ok 2).
Proof.
  apply (count_is_number_of_data_lines 4300 scenario 1 2).
  - repeat constructor; intros _; vm_compute; reflexivity.
  - vm_compute; reflexivity.
  - vm_compute; reflexivity.
Defined.

Lemma format_error_iff_bad_piece_witness :
  main 4300 (scenario ++ [missing_gt_line]) []
  = Outcome [] (Err (ValueError_invalid_literal (lit ".")))
  /\ pieces_read (scenario ++ [missing_gt_line])
     = spec_pieces (scenario ++ [missing_gt_line]).
Proof.
  split.
  - apply (proj1 (format_error_iff_bad_piece 4300
                    (scenario ++ [missing_gt_line]) [])).
    exists [lit "0"; lit "0"; lit "0"; lit "1"; lit "1"; lit "1"],
           (lit "."), [lit "."].
    split; [vm_compute; reflexivity|]. split; [|vm_compute; reflexivity].
    repeat constructor.
  - apply (proj2 (proj2 (proj2 (proj2
             (format_error_iff_bad_piece 4300
                (scenario ++ [missing_gt_line]) []))))).
    repeat constructor; intros _; vm_compute; reflexivity.
Defined.

Lemma format_error_prints_nothing_witness :
  exists e, main 4300 (scenario ++ [missing_gt_line]) [] = Outcome [] (Err e).
Proof.
  apply (format_error_prints_nothing 4300 (scenario ++ [missing_gt_line]) []).
  apply Exists_exists. exists missing_gt_line. split.
  - right; right; right; left; reflexivity.
  - split; vm_compute; reflexivity.
Defined.

Lemma strip_removes_both_ends_witness :
  fields (TAB :: short_line) = fields short_line
  /\ fields short_line = spec_fields short_line.
Proof.
  split.
  - apply (proj1 (proj2 (strip_removes_both_ends short_line)) TAB).
    vm_compute; reflexivity.
  - apply (proj2 (proj2 (strip_removes_both_ends short_line))
             99%N (tl short_line)); vm_compute; reflexivity.
Defined.

Lemma parse_gt_decodes_in_order_witness :
  split SLASH (lit "0/1/2") = [lit "0"; lit "1"; lit "2"]
  /\ parse_gt 4300 (lit "0/1/2") = Ok [0; 1; 2].
Proof.
  destruct (parse_gt_decodes_in_order 4300
              [lit "0"; lit "1"; lit "2"] [0; 1; 2]) as (H1 & H2 & _).
  - discriminate.
  - repeat constructor.
  - split; [exact H1 | exact H2].
Defined.

Lemma header_test_on_raw_line_witness :
  startswith (lit " #header" ++ [LF]) (lit "#") = false
  /\ loop_body 4300 (lit " #header" ++ [LF]) 0
     = (_ <- gts 4300 (lit " #header" ++ [LF]) ;; Ok (0 + 1)).
Proof.
  apply (proj2 (header_test_on_raw_line 4300 (lit "header" ++ [LF]) 0) [SPACE]).
  - discriminate.
  - reflexivity.
Defined.

Lemma output_is_one_line_witness :
  exists snps_read,
    for_loop 4300 scenario 0 = Ok snps_read
    /\ stdout (main 4300 scenario [])
       = [] ++ lit "SNPs read " ++ str_of_int snps_read ++ [LF]
    /\ forallb is_ascii_digit (str_of_int snps_read) = true
    /\ decimal_value (str_of_int snps_read) = snps_read
    /\ count_occ N.eq_dec
         (lit "SNPs read " ++ str_of_int snps_read ++ [LF]) LF = 1%nat.
Proof.
  apply (proj1 (output_is_one_line 4300 scenario [])).
  vm_compute; reflexivity.
Defined.


Lemma short_line_is_counted_witness :
  sample_fields short_line = []
  /\ gts 4300 short_line = Ok []
  /\ loop_body 4300 short_line 0 = Ok (0 + 1).
Proof.
  apply (proj1 (short_line_is_counted 4300 0) short_line).
  - vm_compute; reflexivity.
  - left. vm_compute. lia.
Defined.

Lemma negative_alleles_are_accepted_witness :
  parse_gt 4300 (join SLASH (map str_of_int [-1; 2])) = Ok [-1; 2].
Proof.
  apply (proj2 (proj2 (negative_alleles_are_accepted 4300)) [-1; 2]).
  - discriminate.
  - repeat constructor; vm_compute; lia.
Defined.

(** C3 as stated does not hold. [leading_tab_line] is a data line that
    begins with a tab. Stripped on the right only it has ten fields, the
    first one empty and the tenth the genotype [./.]; the script strips
    the leading tab too and is left with nine fields, so that no genotype
    is parsed and the line is counted. *)
Lemma leading_tab_is_stripped :
  wf_line leading_tab_line = true
  /\ startswith leading_tab_line (lit "#") = false
  /\ spec_fields leading_tab_line
     = map lit [""; "100"; "."; "A"; "T"; "."; "."; "."; "GT"; "./."]%string
  /\ fields leading_tab_line
     = map lit ["100"; "."; "A"; "T"; "."; "."; "."; "GT"; "./."]%string
  /\ loop_body 4300 leading_tab_line 0 = Ok 1
  /\ ~ (forall line,
          startswith line (lit "#") = false -> fields line = spec_fields line).
Proof.
  repeat split; try (vm_compute; reflexivity).
  intros H. specialize (H leading_tab_line eq_refl). vm_compute in H.
  discriminate H.
Defined.

(** C2 as stated does not hold. The tenth column of [leading_tab_line]
    is the genotype token [./.], whose pieces [int] rejects; the script
    strips the leading tab, is left with nine fields, parses nothing and
    reports the line as read. *)
Lemma shifted_genotype_is_not_parsed :
  wf_line leading_tab_line = true
  /\ startswith leading_tab_line (lit "#") = false
  /\ skipn 9 (spec_fields leading_tab_line) = [lit "./."]
  /\ spec_pieces [leading_tab_line] = [lit "."; lit "."]
  /\ int 4300 (lit ".") = Err (ValueError_invalid_literal (lit "."))
  /\ pieces_read [leading_tab_line] = []
  /\ main 4300 [leading_tab_line] []
     = Outcome (lit "SNPs read 1" ++ [LF]) (Ok tt).
Proof. repeat split; vm_compute; reflexivity. Defined.


(** ** Further properties at sample inputs *)

Lemma counts_add_witness :
  (for_loop 4300 (scenario ++ [data_line_1]) 0 = Ok (2 + 1)
   /\ main 4300 (scenario ++ [data_line_1]) []
      = Outcome ([] ++ lit "SNPs read " ++ str_of_int (2 + 1) ++ [LF]) (Ok tt))
  /\ (lines_of_text (concat scenario ++ data_line_1)
      = lines_of_text (concat scenario) ++ lines_of_text data_line_1
      /\ for_loop 4300 (lines_of_text (concat scenario ++ data_line_1)) 0
         = Ok (2 + 1)
      /\ main 4300 (lines_of_text (concat scenario ++ data_line_1)) []
         = Outcome ([] ++ lit "SNPs read " ++ str_of_int (2 + 1) ++ [LF])
                   (Ok tt)).
Proof.
  split.
  - apply (proj1 (counts_add 4300 2 1 []) scenario [data_line_1]);
      vm_compute; reflexivity.
  - apply (proj2 (counts_add 4300 2 1 []) (concat scenario) data_line_1).
    + right. exists (removelast (concat scenario)). vm_compute; reflexivity.
    + vm_compute; reflexivity.
    + vm_compute; reflexivity.
Defined.

Lemma failure_ends_the_run_witness :
  for_loop 4300 (scenario ++ missing_gt_line :: [short_line]) 0
  = Err (ValueError_invalid_literal (lit "."))
  /\ main 4300 (scenario ++ missing_gt_line :: [short_line]) []
     = Outcome [] (Err (ValueError_invalid_literal (lit "."))).
Proof.
  apply (failure_ends_the_run 4300 scenario missing_gt_line [short_line] 2);
    vm_compute; reflexivity.
Defined.

Lemma header_line_is_transparent_witness :
  for_loop 4300 ([data_line_1] ++ header_line :: [data_line_2]) 0
  = for_loop 4300 ([data_line_1] ++ [data_line_2]) 0
  /\ main 4300 ([data_line_1] ++ header_line :: [data_line_2]) []
     = main 4300 ([data_line_1] ++ [data_line_2]) [].
Proof.
  apply (header_line_is_transparent 4300). vm_compute; reflexivity.
Defined.

Lemma counter_bounds_witness :
  0 <= 2 <= 0 + Z.of_nat (length scenario)
  /\ (2 = 0 + Z.of_nat (length scenario)
      <-> Forall (fun line => startswith line (lit "#") = false) scenario)
  /\ (2 = 0
      <-> Forall (fun line => startswith line (lit "#") = true) scenario).
Proof.
  apply (counter_bounds 4300 scenario 0 2). vm_compute; reflexivity.
Defined.

Lemma trailing_space_is_ignored_witness :
  fields (data_line_1 ++ [TAB; CR; LF]) = fields data_line_1
  /\ loop_body 4300 (data_line_1 ++ [TAB; CR; LF]) 0
     = loop_body 4300 data_line_1 0.
Proof.
  apply (trailing_space_is_ignored 4300). vm_compute; reflexivity.
Defined.

Lemma record_fields_witness :
  fields (join TAB (map lit ["c1"; "."; "."; "."; "."; "."; "."; "."; ".";
                             "0/0"; "0/1"]%string) ++ [LF])
  = map lit ["c1"; "."; "."; "."; "."; "."; "."; "."; "."; "0/0"; "0/1"]%string
  /\ sample_fields
       (join TAB (map lit ["c1"; "."; "."; "."; "."; "."; "."; "."; ".";
                           "0/0"; "0/1"]%string) ++ [LF])
     = skipn 9 (map lit ["c1"; "."; "."; "."; "."; "."; "."; "."; ".";
                         "0/0"; "0/1"]%string).
Proof.
  apply (record_fields
           (map lit ["c1"; "."; "."; "."; "."; "."; "."; "."; ".";
                     "0/0"; "0/1"]%string)
           99%N (lit "1" ++ TAB :: tl (tl (tl (removelast data_line_1))))
           (removelast (removelast data_line_1)) 49%N [LF]).
  - repeat constructor; vm_compute; intuition discriminate.
  - discriminate.
  - vm_compute; reflexivity.
  - vm_compute; reflexivity.
  - vm_compute; reflexivity.
  - vm_compute; reflexivity.
  - vm_compute; reflexivity.
Defined.

Lemma gts_shape_witness :
  length [[0; 0]; [0; 1]] = (length (fields data_line_1) - 9)%nat
  /\ Forall2 (fun token alleles =>
                parse_gt 4300 token = Ok alleles
                /\ length alleles = S (count_occ N.eq_dec token SLASH))
             (sample_fields data_line_1) [[0; 0]; [0; 1]]
  /\ Forall (fun alleles => alleles <> []) [[0; 0]; [0; 1]].
Proof.
  apply (gts_shape 4300 data_line_1). vm_compute; reflexivity.
Defined.


Lemma int_tolerates_space_and_sign_witness :
  int 4300 ([SPACE] ++ lit "007" ++ [SPACE]) = Ok (decimal_value (lit "007"))
  /\ int 4300 ([SPACE] ++ PLUS :: lit "007" ++ [SPACE])
     = Ok (decimal_value (lit "007"))
  /\ int 4300 ([SPACE] ++ MINUS :: lit "007" ++ [SPACE])
     = Ok (- decimal_value (lit "007")).
Proof.
  apply (int_tolerates_space_and_sign 4300 [SPACE] (lit "007") [SPACE]);
    try discriminate; vm_compute; reflexivity.
Defined.

Lemma digit_limit_witness :
  (int 640 (repeat 49%N 641)
   = Err (ValueError_exceeds_limit (length (repeat 49%N 641)))
   /\ parse_gt 640 (repeat 49%N 641)
      = Err (ValueError_exceeds_limit (length (repeat 49%N 641))))
  /\ (int 0 (repeat 49%N 641) = Ok (decimal_value (repeat 49%N 641))
      /\ parse_gt 0 (repeat 49%N 641) = Ok [decimal_value (repeat 49%N 641)]).
Proof.
  split.
  - apply (proj1 (digit_limit 640 (repeat 49%N 641)
                    ltac:(discriminate) ltac:(vm_compute; reflexivity)));
      rewrite ?repeat_length; lia.
  - apply (proj2 (digit_limit 0 (repeat 49%N 641)
                    ltac:(discriminate) ltac:(vm_compute; reflexivity))).
    reflexivity.
Defined.

Lemma int_of_str_of_int_witness : int 4300 (str_of_int (-120)) = Ok (-120).
Proof.
  apply (int_of_str_of_int 4300 (-120)). left. vm_compute. lia.
Defined.

Lemma newline_convention_is_irrelevant_witness :
  lines_of_text (concat scenario) = readlines (concat scenario)
  /\ lines_of_text
       (flat_map (fun c => if (c =? LF)%N then [CR; LF] else [c])
                 (concat scenario))
     = readlines (concat scenario)
  /\ lines_of_text
       (map (fun c => if (c =? LF)%N then CR else c) (concat scenario))
     = readlines (concat scenario)
  /\ main 4300
       (lines_of_text
          (flat_map (fun c => if (c =? LF)%N then [CR; LF] else [c])
                    (concat scenario))) []
     = main 4300 (lines_of_text (concat scenario)) [].
Proof.
  apply (newline_convention_is_irrelevant 4300 (concat scenario) []).
  vm_compute. intuition discriminate.
Defined.
